(** * server.js: a shallow embedding of the Express application

    The repository is one file, [server.js]: an Express router with a
    username-only login, a random dog picture fetched from dog.ceo, a per-user
    list of saved pictures kept in MongoDB through Mongoose, and a readline
    prompt that shuts the process down on [stop].

    The handlers are embedded as computations in a state-and-exception monad
    over a [world] that holds what a handler can read or write: the two
    collections, [req.session], the console, the clock, and the answers the
    environment is going to give (the upstream reply and which store calls
    reject).  The readline controller is embedded as a transition function on
    its phases. *)

From Stdlib Require Import ZArith List Bool String Ascii Lia.
From Stdlib Require Import Permutation Sorted.
From Stdlib Require Import Floats.PrimFloat.
Import ListNotations.

Local Open Scope Z_scope.

(** ** JavaScript strings *)

(** A JavaScript string is a sequence of UTF-16 code units. *)
Definition jsstring := list Z.

(** A program literal (ASCII) as a JavaScript string. *)
Definition lit (s : string) : jsstring :=
  map (fun a => Z.of_N (N_of_ascii a)) (list_ascii_of_string s).

Definition jsstring_eqb (a b : jsstring) : bool :=
  if list_eq_dec Z.eq_dec a b then true else false.

Definition is_empty (s : jsstring) : bool :=
  match s with [] => true | _ :: _ => false end.

(** WhiteSpace and LineTerminator of ECMA-262, the code units that
    [String.prototype.trim] strips. *)
Definition is_js_whitespace (c : Z) : bool :=
  (c =? 9) || (c =? 10) || (c =? 11) || (c =? 12) || (c =? 13) || (c =? 32)
  || (c =? 160) || (c =? 5760) || ((8192 <=? c) && (c <=? 8202))
  || (c =? 8232) || (c =? 8233) || (c =? 8239) || (c =? 8287)
  || (c =? 12288) || (c =? 65279).

Fixpoint trimStart (s : jsstring) : jsstring :=
  match s with
  | [] => []
  | c :: rest => if is_js_whitespace c then trimStart rest else s
  end.

Definition trimEnd (s : jsstring) : jsstring := rev (trimStart (rev s)).

(** [s.trim()] *)
Definition trim (s : jsstring) : jsstring := trimEnd (trimStart s).

(** ** JavaScript values *)

(** The values that reach the handlers: [undefined], and what [JSON.parse]
    and the urlencoded body parser build.  An object is its own properties in
    order, each key once. *)
#[local] Set Warnings "-register-all".
Inductive value : Type :=
| VUndefined
| VNull
| VBool (b : bool)
| VNum (f : float)
| VStr (s : jsstring)
| VArr (items : list value)
| VObj (props : list (jsstring * value)).

(** ToBoolean *)
Definition truthy (v : value) : bool :=
  match v with
  | VUndefined | VNull => false
  | VBool b => b
  | VNum f => negb (PrimFloat.eqb f 0%float || PrimFloat.is_nan f)
  | VStr s => negb (is_empty s)
  | VArr _ | VObj _ => true
  end.

(** [a || b] *)
Definition js_or (a b : value) : value := if truthy a then a else b.

(** What [bodyParser.urlencoded({ extended: true })] can put in a field of
    [req.body]: nothing, a string, an array or an object. *)
Definition is_form_value (v : value) : bool :=
  match v with
  | VUndefined | VStr _ | VArr _ | VObj _ => true
  | VNull | VBool _ | VNum _ => false
  end.

(** What [JSON.parse] can return: anything but [undefined]. *)
Definition is_json_value (v : value) : bool :=
  match v with VUndefined => false | _ => true end.

Fixpoint own_property (key : jsstring) (props : list (jsstring * value))
  : option value :=
  match props with
  | [] => None
  | (k, v) :: rest => if jsstring_eqb k key then Some v else own_property key rest
  end.

(** ** Built-ins used to run the model on concrete inputs *)

(** [toLowerCase] on strings of Basic Latin code units. *)
Definition ascii_toLowerCase (s : jsstring) : jsstring :=
  map (fun c => if (65 <=? c) && (c <=? 90) then c + 32 else c) s.

(** A String cast that refuses everything that is not already a string. *)
Definition cast_refuse (v : value) : option jsstring := None.

(** ** Documents, session and responses *)

(** An ObjectId.  [user._id.toString()] and the cast back to an ObjectId that
    Mongoose applies to [Image.user] are inverse to each other, so the session
    keeps the id itself. *)
Definition oid := N.

(** userSchema: [{ username, createdAt }] *)
Record user_doc := mk_user {
  u_id : oid;
  u_username : jsstring;
  u_createdAt : Z
}.

(** imageSchema: [{ user, imageUrl, savedAt }] *)
Record image_doc := mk_image {
  i_id : oid;
  i_user : oid;
  i_imageUrl : jsstring;
  i_savedAt : Z
}.

(** [req.session.user = { id, username }] *)
Record session_user := mk_session_user {
  su_id : oid;
  su_username : jsstring
}.

(** The fields of [req.session] the application defines. *)
Record session := mk_session {
  s_user : option session_user;
  s_currentImage : value
}.

(** A session nobody has written to. *)
Definition fresh_session : session := mk_session None VUndefined.

(** [req.body] *)
Record body := mk_body {
  b_username : value;
  b_imageUrl : value
}.

Record request := mk_request { req_body : body }.

(** The second argument of [res.render], per view.  [error] is [None] for
    [null] and for a context without the key. *)
Inductive locals : Type :=
| LoginLocals (error : option string)
| HomeLocals (currentImage : value) (error : option string)
| SavedLocals (images : list image_doc).

Inductive response : Type :=
| Render (status : Z) (view : string) (ctx : locals)
| Redirect (status : Z) (location : string).

(** What the call to dog.ceo is going to do: [fetch] rejects, or it resolves
    to a response with its [ok] flag and a body, [None] when [response.json()]
    rejects. *)
Inductive upstream : Type :=
| NetworkError
| Responded (ok : bool) (json : option value).

Inductive error : Type :=
| TypeError
| SyntaxError
| FetchError
| NonOkStatus
| StoreError
| ValidationError
| DuplicateKey
| CastError.

Inductive outcome (A : Type) : Type :=
| Returned (a : A)
| Thrown (e : error).
Arguments Returned {A} a.
Arguments Thrown {A} e.

(** Everything a request can read or write. *)
Record world := mk_world {
  users : list user_doc;
  images : list image_doc;
  sess : session;
  currentUser : option session_user;
  console : list jsstring;
  now : Z;
  next_oid : oid;
  dog_api : upstream;
  faults : list bool
}.

Definition set_users (us : list user_doc) (w : world) : world :=
  mk_world us (images w) (sess w) (currentUser w) (console w) (now w)
           (next_oid w) (dog_api w) (faults w).

Definition set_images (imgs : list image_doc) (w : world) : world :=
  mk_world (users w) imgs (sess w) (currentUser w) (console w) (now w)
           (next_oid w) (dog_api w) (faults w).

Definition set_sess (s : session) (w : world) : world :=
  mk_world (users w) (images w) s (currentUser w) (console w) (now w)
           (next_oid w) (dog_api w) (faults w).

Definition set_currentUser (u : option session_user) (w : world) : world :=
  mk_world (users w) (images w) (sess w) u (console w) (now w)
           (next_oid w) (dog_api w) (faults w).

Definition set_console (c : list jsstring) (w : world) : world :=
  mk_world (users w) (images w) (sess w) (currentUser w) c (now w)
           (next_oid w) (dog_api w) (faults w).

Definition set_next_oid (n : oid) (w : world) : world :=
  mk_world (users w) (images w) (sess w) (currentUser w) (console w) (now w)
           n (dog_api w) (faults w).

Definition set_faults (fs : list bool) (w : world) : world :=
  mk_world (users w) (images w) (sess w) (currentUser w) (console w) (now w)
           (next_oid w) (dog_api w) fs.

(** ** The monad of handlers

    A computation runs on a world and either returns or throws; what it wrote
    before throwing stays written, as in JavaScript. *)
Definition M (A : Type) : Type := world -> outcome A * world.

Definition ret {A : Type} (a : A) : M A := fun w => (Returned a, w).

Definition bind {A B : Type} (m : M A) (k : A -> M B) : M B :=
  fun w =>
    match m w with
    | (Returned a, w') => k a w'
    | (Thrown e, w') => (Thrown e, w')
    end.

Definition throw {A : Type} (e : error) : M A := fun w => (Thrown e, w).

(** [try { body } catch (err) { handler }] *)
Definition try_catch {A : Type} (body : M A) (handler : error -> M A) : M A :=
  fun w =>
    match body w with
    | (Returned a, w') => (Returned a, w')
    | (Thrown e, w') => handler e w'
    end.

Declare Scope js_scope.
Delimit Scope js_scope with js.
Notation "x <- m ;; k" := (bind m (fun x => k))
  (at level 61, m at next level, right associativity) : js_scope.
Notation "m ;; k" := (bind m (fun _ => k))
  (at level 61, right associativity) : js_scope.
Local Open Scope js_scope.

(** [req.session] *)
Definition get_session : M session := fun w => (Returned (sess w), w).

(** [req.session.user = u] *)
Definition set_session_user (u : session_user) : M unit :=
  fun w => (Returned tt, set_sess (mk_session (Some u) (s_currentImage (sess w))) w).

(** [req.session.currentImage = v] *)
Definition set_session_currentImage (v : value) : M unit :=
  fun w => (Returned tt, set_sess (mk_session (s_user (sess w)) v) w).

(** [req.session.destroy(cb)]: the next read finds a new, empty session. *)
Definition session_destroy : M unit :=
  fun w => (Returned tt, set_sess fresh_session w).

(** [req.session.user.id], a TypeError when [user] is undefined. *)
Definition session_user_id : M oid :=
  fun w =>
    match s_user (sess w) with
    | Some u => (Returned (su_id u), w)
    | None => (Thrown TypeError, w)
    end.

(** [console.log] and [console.error]; an error object printed after the
    label is left out. *)
Definition console_log (msg : jsstring) : M unit :=
  fun w => (Returned tt, set_console (console w ++ [msg]) w).

(** [res.render(view, ctx)]: status 200.  Every path of every handler sends
    exactly one response, which is the value the handler returns. *)
Definition res_render (view : string) (ctx : locals) : M response :=
  ret (Render 200 view ctx).

(** [res.redirect(location)]: status 302. *)
Definition res_redirect (location : string) : M response :=
  ret (Redirect 302 location).

(** ** The store *)

(** A call to the store: the next entry of [faults] says whether it rejects;
    with no entry left it goes through. *)
Definition store_call {A : Type} (op : M A) : M A :=
  fun w =>
    match faults w with
    | true :: rest => (Thrown StoreError, set_faults rest w)
    | false :: rest => op (set_faults rest w)
    | [] => op w
    end.

(** [User.findOne({ username })]: exact match on the username. *)
Definition User_findOne (username : jsstring) : M (option user_doc) :=
  store_call (fun w =>
    (Returned (find (fun u => jsstring_eqb (u_username u) username) (users w)), w)).

(** [User.create({ username })]: [username] is required and unique,
    [createdAt] defaults to [Date.now]. *)
Definition User_create (username : jsstring) : M user_doc :=
  store_call (fun w =>
    if is_empty username then (Thrown ValidationError, w)
    else if existsb (fun u => jsstring_eqb (u_username u) username) (users w)
    then (Thrown DuplicateKey, w)
    else
      let doc := mk_user (next_oid w) username (now w) in
      (Returned doc, set_next_oid (N.succ (next_oid w)) (set_users (users w ++ [doc]) w))).

(** Insertion into a list sorted by [savedAt], newest first. *)
Fixpoint insert_desc (x : image_doc) (l : list image_doc) : list image_doc :=
  match l with
  | [] => [x]
  | y :: rest =>
      if i_savedAt y <? i_savedAt x then x :: l else y :: insert_desc x rest
  end.

(** [.sort({ savedAt: -1 })] *)
Fixpoint sort_desc (l : list image_doc) : list image_doc :=
  match l with
  | [] => []
  | x :: rest => insert_desc x (sort_desc rest)
  end.

(** [Image.find({ user }).sort({ savedAt: -1 })] *)
Definition Image_find_sorted (user : oid) : M (list image_doc) :=
  store_call (fun w =>
    (Returned (sort_desc (filter (fun i => N.eqb (i_user i) user) (images w))), w)).

(** ** Concrete worlds *)

Definition alice : session_user := mk_session_user 1%N (lit "alice").

Definition no_form : request := mk_request (mk_body VUndefined VUndefined).

(** A store with nobody in it and a browser that has not logged in. *)
Definition empty_world : world :=
  mk_world [] [] fresh_session None [] 1000 1%N NetworkError [].

(** Alice logged in, the upstream unreachable. *)
Definition alice_world : world :=
  mk_world [mk_user 1%N (lit "alice") 900] [] (mk_session (Some alice) VUndefined)
           None [] 1000 2%N NetworkError [].

(** Three saves of Alice's at times 10, 20 and 30, and one of somebody else. *)
Definition save1 : image_doc := mk_image 11%N 1%N (lit "https://x/a.jpg") 10.
Definition save2 : image_doc := mk_image 12%N 1%N (lit "https://x/b.jpg") 20.
Definition save3 : image_doc := mk_image 14%N 1%N (lit "https://x/c.jpg") 30.
Definition foreign : image_doc := mk_image 13%N 5%N (lit "https://x/z.jpg") 25.

Definition gallery_world : world :=
  set_images [save1; save2; foreign; save3] alice_world.

(** The upstream answers 200 with a JSON object that has no [message]. *)
Definition status_only : value := VObj [(lit "status", VStr (lit "success"))].

Definition upstream_world (data : value) : world :=
  mk_world [mk_user 1%N (lit "alice") 900] []
           (mk_session (Some alice) (VStr (lit "https://x/a.jpg")))
           None [] 1000 2%N (Responded true (Some data)) [].

Section Server.

(** [String.prototype.toLowerCase], a built-in that follows the Unicode case
    tables. *)
Variable toLowerCase : jsstring -> jsstring.

(** Mongoose's cast to String of a value that is not a string; [None] is a
    CastError. *)
Variable cast_other : value -> option jsstring.

(** The cast of the [imageUrl] path: a string is kept as it is. *)
Definition castString (v : value) : option jsstring :=
  match v with
  | VStr s => Some s
  | _ => cast_other v
  end.

(** [Image.create({ user, imageUrl })]: [imageUrl] is cast to a string and
    required, [savedAt] defaults to [Date.now]. *)
Definition Image_create (user : oid) (imageUrl : value) : M image_doc :=
  store_call (fun w =>
    match castString imageUrl with
    | None => (Thrown CastError, w)
    | Some url =>
        if is_empty url then (Thrown ValidationError, w)
        else
          let doc := mk_image (next_oid w) user url (now w) in
          (Returned doc,
           set_next_oid (N.succ (next_oid w)) (set_images (images w ++ [doc]) w))
    end).

(** ** The routes *)

(** [router.get("/")] *)
Definition get_root (req : request) : M response := res_redirect "/login".

(** [router.get("/login")] *)
Definition get_login (req : request) : M response :=
  res_render "login" (LoginLocals None).

(** [x.trim()]: only a string has the method. *)
Definition call_trim (v : value) : M jsstring :=
  match v with
  | VStr s => ret (trim s)
  | _ => throw TypeError
  end.

(** [router.post("/login")] *)
Definition post_login (req : request) : M response :=
  username <- call_trim (js_or (b_username (req_body req)) (VStr [])) ;;
  if is_empty username then
    res_render "login" (LoginLocals (Some "Username is required."%string))
  else
    try_catch
      (found <- User_findOne username ;;
       user <- match found with
               | Some u => ret u
               | None => User_create username
               end ;;
       set_session_user (mk_session_user (u_id user) (u_username user)) ;;
       res_redirect "/home")
      (fun err =>
         console_log (lit "Error in /login:") ;;
         res_render "login"
           (LoginLocals (Some "Something went wrong. Try again."%string))).

(** [router.post("/logout")] *)
Definition post_logout (req : request) : M response :=
  session_destroy ;;
  res_redirect "/login".

(** [requireLogin(req, res, next)] *)
Definition requireLogin (next : M response) : M response :=
  s <- get_session ;;
  match s_user s with
  | None => res_redirect "/login"
  | Some _ => next
  end.

(** [router.get("/home")] *)
Definition get_home (req : request) : M response :=
  s <- get_session ;;
  let currentImage := js_or (s_currentImage s) VNull in
  res_render "home" (HomeLocals currentImage None).

(** [await fetch("https://dog.ceo/api/breeds/image/random")] *)
Definition fetch_dog : M (bool * option value) :=
  fun w =>
    match dog_api w with
    | NetworkError => (Thrown FetchError, w)
    | Responded ok json => (Returned (ok, json), w)
    end.

(** [await response.json()] *)
Definition response_json (json : option value) : M value :=
  match json with
  | Some data => ret data
  | None => throw SyntaxError
  end.

(** [data.message]: a TypeError on [null] and [undefined], the own property
    of an object, and [undefined] everywhere else. *)
Definition get_message (data : value) : M value :=
  match data with
  | VUndefined | VNull => throw TypeError
  | VObj props =>
      ret (match own_property (lit "message") props with
           | Some v => v
           | None => VUndefined
           end)
  | VBool _ | VNum _ | VStr _ | VArr _ => ret VUndefined
  end.

(** [router.get("/random")] *)
Definition get_random (req : request) : M response :=
  try_catch
    (response <- fetch_dog ;;
     (if negb (fst response) then throw NonOkStatus else ret tt) ;;
     data <- response_json (snd response) ;;
     imageUrl <- get_message data ;;
     set_session_currentImage imageUrl ;;
     res_render "home" (HomeLocals imageUrl None))
    (fun err =>
       console_log (lit "Error fetching random image:") ;;
       res_render "home"
         (HomeLocals VNull (Some "Could not load image. Please try again."%string))).

(** [req.body.imageUrl || req.session.currentImage] *)
Definition resolve_imageUrl (req : request) (s : session) : value :=
  js_or (b_imageUrl (req_body req)) (s_currentImage s).

(** [router.post("/save")] *)
Definition post_save (req : request) : M response :=
  s <- get_session ;;
  let imageUrl := resolve_imageUrl req s in
  if negb (truthy imageUrl) then res_redirect "/home"
  else
    try_catch
      (user <- session_user_id ;;
       Image_create user imageUrl ;;
       res_redirect "/saved")
      (fun err =>
         console_log (lit "Error saving image:") ;;
         res_redirect "/home").

(** [router.get("/saved")] *)
Definition get_saved (req : request) : M response :=
  try_catch
    (user <- session_user_id ;;
     found <- Image_find_sorted user ;;
     res_render "saved" (SavedLocals found))
    (fun err =>
       console_log (lit "Error loading saved images:") ;;
       res_render "saved" (SavedLocals [])).

(** The routes the router registers. *)
Inductive route : Type :=
| GET_root
| GET_login
| POST_login
| POST_logout
| GET_home
| GET_random
| POST_save
| GET_saved.

(** The routes registered with [requireLogin]. *)
Definition protected (r : route) : bool :=
  match r with
  | GET_home | GET_random | POST_save | GET_saved => true
  | GET_root | GET_login | POST_login | POST_logout => false
  end.

(** The last function of each route. *)
Definition handler (r : route) : request -> M response :=
  match r with
  | GET_root => get_root
  | GET_login => get_login
  | POST_login => post_login
  | POST_logout => post_logout
  | GET_home => get_home
  | GET_random => get_random
  | POST_save => post_save
  | GET_saved => get_saved
  end.

(** [router] *)
Definition router (r : route) (req : request) : M response :=
  match r with
  | GET_root => get_root req
  | GET_login => get_login req
  | POST_login => post_login req
  | POST_logout => post_logout req
  | GET_home => requireLogin (get_home req)
  | GET_random => requireLogin (get_random req)
  | POST_save => requireLogin (post_save req)
  | GET_saved => requireLogin (get_saved req)
  end.

(** The middleware that sets [res.locals.currentUser = req.session.user || null]
    and calls [next]. *)
Definition expose_user (next : M response) : M response :=
  fun w => next (set_currentUser (s_user (sess w)) w).

(** [app]: the middleware, then the router. *)
Definition app (r : route) (req : request) : M response :=
  expose_user (router r req).

(** ** The readline controller *)

(** The controller between two events: while the process lives, how many
    callbacks handed to [server.close] and how many handed to
    [mongoose.connection.close] have not been called yet; afterwards the
    exit code. *)
Inductive phase : Type :=
| Alive (server_callbacks store_callbacks : nat)
| Exited (code : Z).

(** At the prompt, nothing pending. *)
Definition Running : phase := Alive 0 0.

(** [server.close] was called once and has not called back. *)
Definition Draining : phase := Alive 1 0.


(** What reaches the controller: a line delivered by readline, one callback
    of [server.close] being called, one callback of
    [mongoose.connection.close] being called. *)
Inductive event : Type :=
| Line (line : jsstring)
| ServerClosed
| StoreClosed.

Inductive effect : Type :=
| ConsoleLog (msg : jsstring)
| RlPrompt
| RlClose
| ServerClose
| StoreClose (force : bool)
| ProcessExit (code : Z).

(** [String(line || "").trim().toLowerCase()] *)
Definition command (line : jsstring) : jsstring :=
  toLowerCase (trim (if is_empty line then [] else line)).

(** The body of [rl.on("line", ...)], with [n] callbacks of [server.close]
    and [m] of the store's [close] pending.  The stop branch hands one more
    callback to [server.close]. *)
Definition on_line (n m : nat) (line : jsstring) : phase * list effect :=
  let cmd := command line in
  if jsstring_eqb cmd (lit "stop") then
    (Alive (S n) m,
     [ConsoleLog (lit "Shutting down the server"); RlClose; ServerClose])
  else if 0 <? Z.of_nat (List.length cmd) then
    (Alive n m, [ConsoleLog (lit "Invalid command: " ++ cmd); RlPrompt])
  else
    (Alive n m, [RlPrompt]).

(** One event.  The line handler has no guard: it runs for every line
    readline delivers, also for lines that were buffered with a [stop] and
    arrive after [rl.close()].  A callback is called only when it is pending:
    that of [server.close] calls the store's [close], that of the store's
    [close] calls [process.exit(0)].  After the exit nothing runs. *)
Definition step (p : phase) (e : event) : phase * list effect :=
  match p with
  | Exited _ => (p, [])
  | Alive n m =>
      match e with
      | Line line => on_line n m line
      | ServerClosed =>
          match n with
          | S n' => (Alive n' (S m), [StoreClose false])
          | O => (p, [])
          end
      | StoreClosed =>
          match m with
          | S _ => (Exited 0, [ProcessExit 0])
          | O => (p, [])
          end
      end
  end.

(** A run: the phase reached and everything done on the way. *)
Fixpoint run (p : phase) (es : list event) : phase * list effect :=
  match es with
  | [] => (p, [])
  | e :: rest =>
      let '(p1, out1) := step p e in
      let '(p2, out2) := run p1 rest in
      (p2, out1 ++ out2)
  end.

(** ** What the environment is going to do *)

(** No store call of this world rejects. *)
Definition reliable (w : world) : Prop := Forall (fun b => b = false) (faults w).

(** The next store call rejects. *)
Definition next_call_rejects (w : world) : bool :=
  match faults w with
  | true :: _ => true
  | _ => false
  end.

(** The upstream call fails: [fetch] rejects, the status is not a success, or
    the body does not parse. *)
Definition upstream_failed (u : upstream) : Prop :=
  u = NetworkError \/ (exists json, u = Responded false json) \/ u = Responded true None.

(** The parsed body has no [message] property. *)
Definition lacks_message (data : value) : Prop :=
  match data with
  | VObj props => own_property (lit "message") props = None
  | _ => True
  end.

(** The reply the upstream is going to give, as the environment sets it. *)
Definition set_dog_api (u : upstream) (w : world) : world :=
  mk_world (users w) (images w) (sess w) (currentUser w) (console w) (now w)
           (next_oid w) u (faults w).

(** [Date.now()] as the environment sets it between requests. *)
Definition set_now (t : Z) (w : world) : world :=
  mk_world (users w) (images w) (sess w) (currentUser w) (console w) t
           (next_oid w) (dog_api w) (faults w).

(** Newest first. *)
Definition newer_or_same (a b : image_doc) : Prop := i_savedAt b <= i_savedAt a.

(** The world a store call that goes through runs on. *)
Definition pop_fault (w : world) : world :=
  match faults w with
  | [] => w
  | _ :: rest => set_faults rest w
  end.

(** The user with a given name, as [User.findOne] looks it up. *)
Definition user_named (name : jsstring) (us : list user_doc) : option user_doc :=
  find (fun u => jsstring_eqb (u_username u) name) us.

(** The store fails a login: the lookup rejects, or the lookup finds nobody
    and the create rejects. *)
Definition login_store_fails (name : jsstring) (w : world) : Prop :=
  next_call_rejects w = true
  \/ (user_named name (users w) = None
      /\ exists rest, faults w = false :: true :: rest).

(** The images of one user, as [Image.find({ user })] selects them. *)
Definition owned_by (user : oid) (imgs : list image_doc) : list image_doc :=
  filter (fun i => N.eqb (i_user i) user) imgs.

(** What the controller does while it keeps running. *)
Definition chatter (e : effect) : bool :=
  match e with
  | ConsoleLog _ | RlPrompt => true
  | RlClose | ServerClose | StoreClose _ | ProcessExit _ => false
  end.

(** A call to [process.exit]. *)
Definition is_exit (e : effect) : bool :=
  match e with
  | ProcessExit _ => true
  | ConsoleLog _ | RlPrompt | RlClose | ServerClose | StoreClose _ => false
  end.

(** Anything but a call to [process.exit]. *)
Definition keeps_alive (e : effect) : bool := negb (is_exit e).


(** ** What one request can change *)

(** The changes a request on route [r] can make to the collections, the
    session and the id counter, one constructor per path of the handlers that
    writes. *)
Inductive change (w w' : world) : route -> Prop :=
| change_nothing (r : route) :
    users w' = users w -> images w' = images w -> sess w' = sess w ->
    next_oid w' = next_oid w ->
    change w w' r
| change_login_found (x : user_doc) :
    In x (users w) ->
    users w' = users w -> images w' = images w -> next_oid w' = next_oid w ->
    sess w' = mk_session (Some (mk_session_user (u_id x) (u_username x)))
                         (s_currentImage (sess w)) ->
    change w w' POST_login
| change_login_created (s : jsstring) :
    trim s <> [] -> user_named (trim s) (users w) = None ->
    users w' = users w ++ [mk_user (next_oid w) (trim s) (now w)] ->
    images w' = images w -> next_oid w' = N.succ (next_oid w) ->
    sess w' = mk_session (Some (mk_session_user (next_oid w) (trim s)))
                         (s_currentImage (sess w)) ->
    change w w' POST_login
| change_logout :
    users w' = users w -> images w' = images w -> next_oid w' = next_oid w ->
    sess w' = fresh_session ->
    change w w' POST_logout
| change_fetched (u : session_user) (v : value) :
    s_user (sess w) = Some u ->
    users w' = users w -> images w' = images w -> next_oid w' = next_oid w ->
    sess w' = mk_session (Some u) v ->
    change w w' GET_random
| change_saved (u : session_user) (url : jsstring) :
    s_user (sess w) = Some u -> url <> [] ->
    users w' = users w ->
    images w' = images w ++ [mk_image (next_oid w) (su_id u) url (now w)] ->
    next_oid w' = N.succ (next_oid w) -> sess w' = sess w ->
    change w w' POST_save.

(** ** What the collections and the session are expected to satisfy *)

(** No two users share a name (the unique index of [userSchema]). *)
Definition usernames_unique (w : world) : Prop :=
  NoDup (map u_username (users w)).

(** Every stored name is non-empty and has no blank at either end. *)
Definition usernames_trimmed (w : world) : Prop :=
  forall x, In x (users w) -> u_username x <> [] /\ trim (u_username x) = u_username x.

(** The user of the session and the owner of every image are users of the
    collection. *)
Definition references_hold (w : world) : Prop :=
  (forall u, s_user (sess w) = Some u ->
     exists x, In x (users w) /\ u_id x = su_id u /\ u_username x = su_username u)
  /\ (forall i, In i (images w) -> exists x, In x (users w) /\ u_id x = i_user i).

(** ** Counting what the controller calls *)

Definition is_server_close (e : effect) : bool :=
  match e with
  | ServerClose => true
  | _ => false
  end.

Definition is_store_close (e : effect) : bool :=
  match e with
  | StoreClose _ => true
  | _ => false
  end.

(** How many of the calls made satisfy [f]. *)
Definition calls (f : effect -> bool) (out : list effect) : nat :=
  List.length (filter f out).

(** ** Startup *)

(** The two variables the program reads from [process.env]; each is a string
    or [undefined]. *)
Record environment := mk_environment {
  env_PORT : value;
  env_MONGO_CONNECTION_STRING : value
}.

(** [process.env.PORT || 3000] *)
Definition portNumber (env : environment) : value :=
  js_or (env_PORT env) (VNum 3000%float).

(** The port inside the template literal of the start message: the string
    from the environment, or the default. *)
Definition port_text (port : value) : jsstring :=
  match port with
  | VStr s => s
  | _ => lit "3000"
  end.

(** What the process does: what the controller does, and besides
    [console.error], [mongoose.connect] and [app.listen]; and what the
    runtime does to it when an error is caught by nobody. *)
Inductive action : Type :=
| Control (e : effect)
| ConsoleError (msg : jsstring)
| MongooseConnect (uri : value)
| AppListen (port : value)
| Aborted (code : Z).

(** The process: its exit code once [process.exit] ran, whether the promise
    of [mongoose.connect] is pending, the controller once [openCli] ran, and
    the port. *)
Record process := mk_process {
  exit_code : option Z;
  connecting : bool;
  cli : option phase;
  port : value
}.

(** What reaches the process: the promise of [mongoose.connect] resolves or
    rejects, the callback of [app.listen] runs, something reaches the
    controller, or an error escapes every handler (an exception thrown out of
    a callback, a rejected promise that nobody handles) and the runtime ends
    the process. *)
Inductive signal : Type :=
| Connected
| ConnectFailed
| Listening
| Controller (e : event)
| Uncaught.

(** The top level of the module, up to [app.listen]. *)
Definition boot (env : environment) : process * list action :=
  let uri := env_MONGO_CONNECTION_STRING env in
  if negb (truthy uri) then
    (mk_process (Some 1) false None (portNumber env),
     [ConsoleError (lit "Error: MONGO_CONNECTION_STRING is not defined in .env");
      Control (ProcessExit 1)])
  else
    (mk_process None true None (portNumber env),
     [MongooseConnect uri; AppListen (portNumber env)]).

(** The exit code a phase of the controller stands for. *)
Definition code_of (p : phase) : option Z :=
  match p with
  | Exited code => Some code
  | Alive _ _ => None
  end.

(** One signal.  A process that has exited does nothing; a promise settles
    once; [openCli] runs from the callback of [app.listen]; the controller
    hears nothing before that; an error that nobody catches ends the process
    with code 1. *)
Definition react (p : process) (sg : signal) : process * list action :=
  match exit_code p with
  | Some _ => (p, [])
  | None =>
      match sg with
      | Connected =>
          if connecting p then
            (mk_process None false (cli p) (port p),
             [Control (ConsoleLog (lit "Connected to MongoDB via Mongoose"))])
          else (p, [])
      | ConnectFailed =>
          if connecting p then
            (mk_process (Some 1) false (cli p) (port p),
             [ConsoleError (lit "MongoDB connection error:"); Control (ProcessExit 1)])
          else (p, [])
      | Listening =>
          match cli p with
          | None =>
              (mk_process None (connecting p) (Some Running) (port p),
               [Control (ConsoleLog
                  (lit "Web server started and running at http://localhost:"
                   ++ port_text (port p)));
                Control RlPrompt])
          | Some _ => (p, [])
          end
      | Controller e =>
          match cli p with
          | None => (p, [])
          | Some ph =>
              let '(ph', out) := step ph e in
              (mk_process (code_of ph') (connecting p) (Some ph') (port p),
               map Control out)
          end
      | Uncaught =>
          (mk_process (Some 1) (connecting p) (cli p) (port p), [Aborted 1])
      end
  end.

(** The signals of a run, one after the other. *)
Fixpoint serve (p : process) (sgs : list signal) : process * list action :=
  match sgs with
  | [] => (p, [])
  | sg :: rest =>
      let '(p1, out1) := react p sg in
      let '(p2, out2) := serve p1 rest in
      (p2, out1 ++ out2)
  end.

(** The program from its first line. *)
Definition main (env : environment) (sgs : list signal) : process * list action :=
  let '(p, out) := boot env in
  let '(p', out') := serve p sgs in
  (p', out ++ out').

(** What the controller gets of the signals. *)
Definition to_controller (sgs : list signal) : list event :=
  flat_map (fun sg => match sg with Controller e => [e] | _ => [] end) sgs.

(** * Properties *)

(** Unfolds the monad and the accessors of [req], [res] and the session, and
    computes. *)
Ltac unfold_monad :=
  unfold bind, ret, throw, try_catch, get_session, set_session_user,
    set_session_currentImage, session_destroy, session_user_id, console_log,
    res_render, res_redirect;
  cbn -[lit trim].

Lemma jsstring_eqb_eq (a b : jsstring) : jsstring_eqb a b = true <-> a = b.
Proof.
  unfold jsstring_eqb. destruct (list_eq_dec Z.eq_dec a b); split; congruence.
Qed.

Lemma jsstring_eqb_refl (a : jsstring) : jsstring_eqb a a = true.
Proof. now apply jsstring_eqb_eq. Qed.

Lemma is_empty_false (s : jsstring) : s <> [] -> is_empty s = false.
Proof. destruct s; [congruence | reflexivity]. Qed.

(** [a || b] is [b] exactly when [a] is falsy. *)
Lemma js_or_truthy (a b : value) : truthy a = true -> js_or a b = a.
Proof. unfold js_or. now intros ->. Qed.

Lemma js_or_falsy (a b : value) : truthy a = false -> js_or a b = b.
Proof. unfold js_or. now intros ->. Qed.

(** A form field is falsy exactly when it is absent or the empty string. *)
Lemma form_value_falsy (v : value) :
  is_form_value v = true ->
  (truthy v = false <-> v = VUndefined \/ v = VStr []).
Proof.
  destruct v as [| | b | f | s | l | l]; simpl; try discriminate; intros _.
  - split; auto.
  - destruct s; simpl; split; intros H; auto; try discriminate.
    destruct H as [H | H]; discriminate.
  - split; [discriminate | intros [H | H]; discriminate].
  - split; [discriminate | intros [H | H]; discriminate].
Qed.

(** ** The login gate *)

Lemma requireLogin_anonymous (next : M response) (w : world) :
  s_user (sess w) = None ->
  requireLogin next w = (Returned (Redirect 302 "/login"), w).
Proof.
  intros H. unfold requireLogin, bind, get_session. now rewrite H.
Qed.

Lemma requireLogin_logged_in (next : M response) (w : world) (u : session_user) :
  s_user (sess w) = Some u ->
  requireLogin next w = next w.
Proof.
  intros H. unfold requireLogin, bind, get_session. now rewrite H.
Qed.

Lemma router_protected (r : route) (req : request) :
  protected r = true -> router r req = requireLogin (handler r req).
Proof. destruct r; simpl; intros H; try discriminate; reflexivity. Qed.

(** C1: on a protected route ([GET /home], [GET /random], [POST /save],
    [GET /saved]) the router runs [requireLogin] before the handler.  With no
    user in the session the answer is a 302 to [/login] whatever the function
    that comes next is, and the world is as the middleware left it: the
    handler did not run.  With a user in the session the gate returns what the
    handler returns on the same world. *)
Theorem login_gate (r : route) (req : request) (w : world) :
  protected r = true ->
  router r req = requireLogin (handler r req)
  /\ (s_user (sess w) = None ->
      (forall next, requireLogin next w = (Returned (Redirect 302 "/login"), w))
      /\ app r req w = (Returned (Redirect 302 "/login"), set_currentUser None w))
  /\ (forall u, s_user (sess w) = Some u ->
      (forall next, requireLogin next w = next w)
      /\ app r req w = handler r req (set_currentUser (Some u) w)).
Proof.
  intros Hp. split; [now apply router_protected |]. split.
  - intros Hn. split.
    + intros next. now apply requireLogin_anonymous.
    + unfold app, expose_user. rewrite (router_protected r req Hp), Hn.
      now apply requireLogin_anonymous.
  - intros u Hu. split.
    + intros next. now apply requireLogin_logged_in with u.
    + unfold app, expose_user. rewrite (router_protected r req Hp), Hu.
      now apply requireLogin_logged_in with u.
Qed.

(** ** Store calls that go through *)

Lemma store_call_reliable {A : Type} (op : M A) (w : world) :
  reliable w -> store_call op w = op (pop_fault w).
Proof.
  unfold reliable, store_call, pop_fault. intros H.
  destruct (faults w) as [| b rest]; [reflexivity |].
  inversion H; subst. reflexivity.
Qed.

Lemma store_call_accepts {A : Type} (op : M A) (w : world) :
  next_call_rejects w = false -> store_call op w = op (pop_fault w).
Proof.
  unfold next_call_rejects, store_call, pop_fault.
  destruct (faults w) as [| [|] rest]; intros H; try discriminate; reflexivity.
Qed.

Lemma store_call_rejects {A : Type} (op : M A) (w : world) :
  next_call_rejects w = true ->
  store_call op w = (Thrown StoreError, set_faults (tl (faults w)) w).
Proof.
  unfold next_call_rejects, store_call.
  destruct (faults w) as [| [|] rest]; intros H; try discriminate; reflexivity.
Qed.

Lemma pop_fault_reliable (w : world) : reliable w -> reliable (pop_fault w).
Proof.
  unfold reliable, pop_fault. intros H.
  destruct (faults w) as [| b rest] eqn:E; [now rewrite E |].
  simpl. now inversion H.
Qed.

Lemma pop_fault_frame (w : world) :
  users (pop_fault w) = users w /\ images (pop_fault w) = images w
  /\ sess (pop_fault w) = sess w /\ now (pop_fault w) = now w
  /\ next_oid (pop_fault w) = next_oid w /\ console (pop_fault w) = console w
  /\ currentUser (pop_fault w) = currentUser w /\ dog_api (pop_fault w) = dog_api w.
Proof. unfold pop_fault. destruct (faults w); repeat split; reflexivity. Qed.

Lemma find_none_existsb {A : Type} (f : A -> bool) (l : list A) :
  find f l = None -> existsb f l = false.
Proof.
  induction l as [| x l IH]; simpl; [reflexivity |].
  destruct (f x); [discriminate | exact IH].
Qed.

Lemma find_snoc {A : Type} (f : A -> bool) (l : list A) (d : A) :
  find f l = None -> f d = true -> find f (l ++ [d]) = Some d.
Proof.
  induction l as [| x l IH]; simpl; intros Hn Hd.
  - now rewrite Hd.
  - destruct (f x); [discriminate | now apply IH].
Qed.

Lemma user_named_name (name : jsstring) (us : list user_doc) (x : user_doc) :
  user_named name us = Some x -> u_username x = name.
Proof.
  unfold user_named. intros H. apply find_some in H as [_ H].
  now apply jsstring_eqb_eq.
Qed.

(** A login with a usable name on a store that answers. *)
Lemma post_login_reliable (s : jsstring) (img : value) (w : world) :
  trim s <> [] -> reliable w ->
  exists w1 usr,
    post_login (mk_request (mk_body (VStr s) img)) w
      = (Returned (Redirect 302 "/home"), w1)
    /\ reliable w1
    /\ sess w1 = mk_session (Some (mk_session_user (u_id usr) (trim s)))
                            (s_currentImage (sess w))
    /\ user_named (trim s) (users w1) = Some usr
    /\ images w1 = images w
    /\ match user_named (trim s) (users w) with
       | Some x => usr = x /\ users w1 = users w
       | None => usr = mk_user (next_oid w) (trim s) (now w)
                 /\ users w1 = users w ++ [usr]
       end.
Proof.
  intros Hne Hrel.
  assert (Hcall : call_trim (js_or (VStr s) (VStr [])) = ret (trim s)).
  { unfold js_or. simpl. destruct s; reflexivity. }
  destruct (pop_fault_frame w) as (Hu & Hi & Hs & Hn & Ho & _).
  unfold post_login. simpl req_body. simpl b_username. rewrite Hcall.
  unfold bind at 1. unfold ret at 1. rewrite (is_empty_false _ Hne).
  unfold try_catch, bind at 1, User_findOne.
  rewrite (store_call_reliable _ w Hrel). rewrite Hu.
  fold (user_named (trim s) (users w)).
  destruct (user_named (trim s) (users w)) as [x |] eqn:Hfind.
  - pose proof (user_named_name _ _ _ Hfind) as Hname.
    eexists. exists x. split; [reflexivity |].
    unfold reliable in *. simpl. rewrite Hs, Hu, Hi, Hname.
    repeat split; try reflexivity.
    + now apply pop_fault_reliable.
    + exact Hfind.
  - pose proof (pop_fault_reliable w Hrel) as Hrel1.
    destruct (pop_fault_frame (pop_fault w)) as (Hu2 & Hi2 & Hs2 & Hn2 & Ho2 & _).
    unfold bind at 1. unfold User_create.
    rewrite (store_call_reliable _ _ Hrel1). rewrite (is_empty_false _ Hne).
    rewrite Hu2, Hu. unfold user_named in Hfind.
    rewrite (find_none_existsb _ _ Hfind).
    eexists. eexists. split; [reflexivity |].
    unfold reliable in *. simpl. rewrite ?Hs2, ?Hs, ?Hi2, ?Hi, ?Hu2, ?Hu, ?Ho2, ?Ho, ?Hn2, ?Hn.
    repeat split; try reflexivity.
    + now apply pop_fault_reliable.
    + unfold user_named. apply find_snoc; [exact Hfind |].
      simpl. apply jsstring_eqb_refl.
Qed.

(** C2: [POST /login] with a username that is not empty once trimmed, on a
    store that answers.  The user is looked up by exact name and created only
    when the lookup finds nothing: then the collection grows by exactly that
    one record.  A second login under the same trimmed name, from any session,
    creates nothing.  Both logins put the id and the name of that one user in
    the session and answer with a 302 to [/home]. *)
Theorem login_find_or_create
  (s s' : jsstring) (img img' : value) (other : session) (w : world) :
  trim s <> [] -> trim s' = trim s -> reliable w ->
  exists w1 w2 usr,
    post_login (mk_request (mk_body (VStr s) img)) w
      = (Returned (Redirect 302 "/home"), w1)
    /\ post_login (mk_request (mk_body (VStr s') img')) (set_sess other w1)
      = (Returned (Redirect 302 "/home"), w2)
    /\ u_username usr = trim s
    /\ s_user (sess w1) = Some (mk_session_user (u_id usr) (trim s))
    /\ s_user (sess w2) = Some (mk_session_user (u_id usr) (trim s))
    /\ users w2 = users w1
    /\ match user_named (trim s) (users w) with
       | Some x => usr = x /\ users w1 = users w
       | None => usr = mk_user (next_oid w) (trim s) (now w)
                 /\ users w1 = users w ++ [usr]
       end.
Proof.
  intros Hne Heq Hrel.
  destruct (post_login_reliable s img w Hne Hrel)
    as (w1 & usr & Hrun1 & Hrel1 & Hsess1 & Hfind1 & _ & Hcase).
  assert (Hne' : trim s' <> []) by now rewrite Heq.
  assert (Hrel1' : reliable (set_sess other w1)) by exact Hrel1.
  destruct (post_login_reliable s' img' (set_sess other w1) Hne' Hrel1')
    as (w2 & usr2 & Hrun2 & _ & Hsess2 & _ & _ & Hcase2).
  rewrite Heq in Hsess2, Hcase2. simpl users in Hcase2.
  rewrite Hfind1 in Hcase2. destruct Hcase2 as [-> Hsame].
  exists w1, w2, usr. repeat split; try assumption.
  - now apply user_named_name with (users w1).
  - now rewrite Hsess1.
  - now rewrite Hsess2.
Qed.

(** C3: [POST /login] whose [username] field is absent, empty or all
    whitespace renders the login view with "Username is required." at status
    200 and leaves the world as it was: the session is not written and no
    store call is made. *)
Theorem login_blank_username (v img : value) (w : world) :
  v = VUndefined \/ (exists s, v = VStr s /\ trim s = []) ->
  post_login (mk_request (mk_body v img)) w
    = (Returned (Render 200 "login" (LoginLocals (Some "Username is required."%string))), w).
Proof.
  intros [-> | (s & -> & Hs)].
  - reflexivity.
  - unfold post_login. simpl req_body. simpl b_username.
    assert (Hcall : call_trim (js_or (VStr s) (VStr [])) = ret (trim s)).
    { unfold js_or. simpl. destruct s; reflexivity. }
    rewrite Hcall. unfold bind, ret. now rewrite Hs.
Qed.

(** C7, amended: when [User.findOne] or [User.create] rejects during a login
    with a usable name, the handler catches the error, logs it and renders the
    login view with "Something went wrong. Try again."; the session is
    exactly what it was before the request, and so are both collections.  The
    handler does not write the session on this path, and it does not clear
    it either: a user who was logged in before stays logged in. *)
Theorem login_store_error (s : jsstring) (img : value) (w : world) :
  trim s <> [] -> login_store_fails (trim s) w ->
  exists w',
    post_login (mk_request (mk_body (VStr s) img)) w
      = (Returned (Render 200 "login"
           (LoginLocals (Some "Something went wrong. Try again."%string))), w')
    /\ sess w' = sess w
    /\ users w' = users w
    /\ images w' = images w
    /\ console w' = console w ++ [lit "Error in /login:"].
Proof.
  intros Hne Hfail.
  assert (Hcall : call_trim (js_or (VStr s) (VStr [])) = ret (trim s)).
  { unfold js_or. simpl. destruct s; reflexivity. }
  unfold post_login. simpl req_body. simpl b_username. rewrite Hcall.
  unfold bind at 1. unfold ret at 1. rewrite (is_empty_false _ Hne).
  unfold try_catch, bind at 1, User_findOne.
  destruct Hfail as [Hrej | (Hnone & rest & Hf)].
  - rewrite (store_call_rejects _ w Hrej).
    eexists. split; [reflexivity |]. simpl. repeat split; auto.
  - unfold store_call at 1. rewrite Hf. simpl users.
    unfold user_named in Hnone. rewrite Hnone.
    unfold bind at 1. unfold User_create, store_call. simpl faults.
    eexists. split; [reflexivity |]. simpl. repeat split; auto.
Qed.

(** C4: [GET /random] by a logged-in user when the upstream call fails
    (network error, non-success status, body that does not parse): the home
    view is rendered at status 200 with [currentImage: null] and a non-empty
    error message, and the session, its stored image URL included, is
    unchanged. *)
Theorem random_upstream_failure (req : request) (w : world) (u : session_user) :
  s_user (sess w) = Some u -> upstream_failed (dog_api w) ->
  exists msg w',
    app GET_random req w = (Returned (Render 200 "home" (HomeLocals VNull (Some msg))), w')
    /\ msg <> ""%string
    /\ s_currentImage (sess w') = s_currentImage (sess w)
    /\ sess w' = sess w
    /\ users w' = users w
    /\ images w' = images w.
Proof.
  intros Hu Hfail.
  exists "Could not load image. Please try again."%string.
  unfold app, expose_user. simpl router.
  rewrite (requireLogin_logged_in _ _ u) by (simpl; exact Hu).
  unfold get_random, try_catch, bind at 1, fetch_dog. simpl dog_api.
  destruct Hfail as [Hf | [(json & Hf) | Hf]]; rewrite Hf.
  - eexists. split; [reflexivity |]. simpl. repeat split; auto; discriminate.
  - eexists. split; [reflexivity |]. simpl. repeat split; auto; discriminate.
  - eexists. split; [reflexivity |]. simpl. repeat split; auto; discriminate.
Qed.

(** ** Sorting by save time *)

Lemma insert_desc_perm (x : image_doc) (l : list image_doc) :
  Permutation (insert_desc x l) (x :: l).
Proof.
  induction l as [| y l IH]; simpl; [reflexivity |].
  destruct (i_savedAt y <? i_savedAt x); [reflexivity |].
  rewrite IH. apply perm_swap.
Qed.

Lemma sort_desc_perm (l : list image_doc) : Permutation (sort_desc l) l.
Proof.
  induction l as [| x l IH]; simpl; [reflexivity |].
  rewrite insert_desc_perm. now constructor.
Qed.

Lemma insert_desc_sorted (x : image_doc) (l : list image_doc) :
  StronglySorted newer_or_same l -> StronglySorted newer_or_same (insert_desc x l).
Proof.
  induction 1 as [| y l Hs IH Hall]; simpl.
  - constructor; constructor.
  - destruct (i_savedAt y <? i_savedAt x) eqn:E.
    + apply Z.ltb_lt in E. constructor; [now constructor |].
      constructor; [unfold newer_or_same; lia |].
      rewrite Forall_forall in *. intros z Hz. specialize (Hall z Hz).
      unfold newer_or_same in *. lia.
    + apply Z.ltb_ge in E. constructor; [exact IH |].
      rewrite Forall_forall in *. intros z Hz.
      apply (Permutation_in _ (insert_desc_perm x l)) in Hz.
      destruct Hz as [<- | Hz]; [exact E | now apply Hall].
Qed.

Lemma sort_desc_sorted (l : list image_doc) : StronglySorted newer_or_same (sort_desc l).
Proof.
  induction l as [| x l IH]; simpl; [constructor | now apply insert_desc_sorted].
Qed.

(** Two listings of the same documents, both newest first, are the same
    listing when no two different documents share a save time. *)
Lemma sorted_listing_unique (l l' : list image_doc) :
  StronglySorted newer_or_same l -> StronglySorted newer_or_same l' ->
  Permutation l l' ->
  (forall a b, In a l -> In b l -> i_savedAt a = i_savedAt b -> a = b) ->
  l = l'.
Proof.
  intros Hs. revert l'. induction Hs as [| a l Hs IH Ha]; intros l' Hs' Hp Huniq.
  - now apply Permutation_nil in Hp.
  - destruct Hs' as [| b l' Hs' Hb].
    + apply Permutation_sym, Permutation_nil in Hp. discriminate.
    + assert (Hab : a = b).
      { assert (Hin_a : In a (b :: l')) by (apply (Permutation_in _ Hp); now left).
        assert (Hin_b : In b (a :: l))
          by (apply (Permutation_in _ (Permutation_sym Hp)); now left).
        destruct Hin_a as [-> | Hin_a]; [reflexivity |].
        destruct Hin_b as [-> | Hin_b]; [reflexivity |].
        rewrite Forall_forall in Ha, Hb.
        specialize (Ha b Hin_b). specialize (Hb a Hin_a).
        unfold newer_or_same in *.
        apply Huniq; [now left | now right | lia]. }
      subst b. f_equal. apply IH; [exact Hs' | now apply Permutation_cons_inv with a |].
      intros x y Hx Hy. apply Huniq; now right.
Qed.

Lemma sort_desc_three (l : list image_doc) (x1 x2 x3 : image_doc) :
  Permutation l [x1; x2; x3] ->
  i_savedAt x1 < i_savedAt x2 < i_savedAt x3 ->
  sort_desc l = [x3; x2; x1].
Proof.
  intros Hp Ht. apply sorted_listing_unique.
  - apply sort_desc_sorted.
  - unfold newer_or_same.
    repeat (constructor; [| repeat constructor; lia]). constructor.
  - rewrite sort_desc_perm, Hp.
    apply Permutation_trans with [x3; x1; x2].
    + apply Permutation_sym. apply (Permutation_cons_append [x1; x2] x3).
    + constructor. apply perm_swap.
  - intros a b Hina Hinb Heq.
    apply (Permutation_in _ (sort_desc_perm l)) in Hina, Hinb.
    apply (Permutation_in _ Hp) in Hina, Hinb. simpl in Hina, Hinb.
    destruct Hina as [<- | [<- | [<- | []]]];
      destruct Hinb as [<- | [<- | [<- | []]]]; try reflexivity; lia.
Qed.

(** C5: [GET /saved] by a logged-in user.  When the store answers, the view
    gets exactly the images whose owner is the session user, newest first; for
    saves at [t1 < t2 < t3] that is the order [t3, t2, t1]; nothing is
    written.  When the store rejects the query, the view gets the empty list,
    still at status 200. *)
Theorem saved_listing (req : request) (w : world) (u : session_user) :
  s_user (sess w) = Some u ->
  (next_call_rejects w = false ->
   exists found w',
     app GET_saved req w = (Returned (Render 200 "saved" (SavedLocals found)), w')
     /\ Permutation found (owned_by (su_id u) (images w))
     /\ (forall x, In x found <-> In x (images w) /\ i_user x = su_id u)
     /\ StronglySorted newer_or_same found
     /\ (forall x1 x2 x3,
           Permutation (owned_by (su_id u) (images w)) [x1; x2; x3] ->
           i_savedAt x1 < i_savedAt x2 < i_savedAt x3 ->
           found = [x3; x2; x1])
     /\ images w' = images w /\ users w' = users w /\ sess w' = sess w)
  /\ (next_call_rejects w = true ->
      exists w',
        app GET_saved req w = (Returned (Render 200 "saved" (SavedLocals [])), w')
        /\ images w' = images w /\ users w' = users w /\ sess w' = sess w).
Proof.
  intros Hu.
  assert (Happ : app GET_saved req w = get_saved req (set_currentUser (Some u) w)).
  { unfold app, expose_user. simpl router. rewrite Hu.
    now apply requireLogin_logged_in with u. }
  rewrite Happ.
  split; intros Hcall;
    unfold get_saved, try_catch, bind at 1, session_user_id;
    simpl sess; rewrite Hu; unfold bind at 1, Image_find_sorted.
  - rewrite (store_call_accepts _ (set_currentUser (Some u) w) Hcall).
    destruct (pop_fault_frame (set_currentUser (Some u) w))
      as (Hus & Him & Hse & _).
    simpl in Hus, Him, Hse. rewrite Him.
    fold (owned_by (su_id u) (images w)).
    eexists. eexists. split; [reflexivity |].
    split; [apply sort_desc_perm |].
    split.
    { intros x. split.
      - intros Hin. apply (Permutation_in _ (sort_desc_perm _)) in Hin.
        unfold owned_by in Hin. apply filter_In in Hin as [Hin Hx].
        split; [exact Hin | now apply N.eqb_eq].
      - intros [Hin Hx].
        apply (Permutation_in _ (Permutation_sym (sort_desc_perm _))).
        unfold owned_by. apply filter_In. split; [exact Hin | now apply N.eqb_eq]. }
    split; [apply sort_desc_sorted |].
    split; [intros x1 x2 x3; apply sort_desc_three |].
    repeat split; assumption.
  - rewrite (store_call_rejects _ (set_currentUser (Some u) w) Hcall).
    eexists. split; [reflexivity |]. repeat split.
Qed.

(** C6: [POST /save] when the form field is absent or empty and the session
    holds nothing to fall back on ([currentImage] is undefined, or falsy in
    any other way): the answer is a 302 to [/home] and the handler leaves the
    world untouched, so no store call is made. *)
Theorem save_without_url (name v : value) (w : world) (u : session_user) :
  s_user (sess w) = Some u ->
  v = VUndefined \/ v = VStr [] ->
  truthy (s_currentImage (sess w)) = false ->
  post_save (mk_request (mk_body name v)) w = (Returned (Redirect 302 "/home"), w)
  /\ app POST_save (mk_request (mk_body name v)) w
     = (Returned (Redirect 302 "/home"), set_currentUser (Some u) w).
Proof.
  intros Hu Hv Hcur.
  assert (Hres : forall w0, sess w0 = sess w ->
            post_save (mk_request (mk_body name v)) w0
            = (Returned (Redirect 302 "/home"), w0)).
  { intros w0 Hs. unfold post_save, bind, get_session, resolve_imageUrl.
    simpl req_body. simpl b_imageUrl. rewrite Hs.
    rewrite js_or_falsy by (destruct Hv as [-> | ->]; reflexivity).
    now rewrite Hcur. }
  split; [now apply Hres |].
  unfold app, expose_user. simpl router. rewrite Hu.
  rewrite (requireLogin_logged_in _ _ u) by (simpl; exact Hu).
  now apply Hres.
Qed.

(** A save of a non-empty string on a store that answers. *)
Lemma post_save_string (name : value) (s : jsstring) (w : world) (u : session_user) :
  s_user (sess w) = Some u -> s <> [] -> next_call_rejects w = false ->
  post_save (mk_request (mk_body name (VStr s))) w
  = (Returned (Redirect 302 "/saved"),
     set_next_oid (N.succ (next_oid (pop_fault w)))
       (set_images
          (images (pop_fault w)
           ++ [mk_image (next_oid (pop_fault w)) (su_id u) s (now (pop_fault w))])
          (pop_fault w))).
Proof.
  intros Hu Hs Hcall. destruct s as [| c s]; [congruence |].
  unfold post_save, resolve_imageUrl, js_or, Image_create. unfold_monad.
  rewrite Hu. cbn -[lit]. rewrite (store_call_accepts _ w Hcall). reflexivity.
Qed.

(** C9: [POST /save] neither trims nor validates the field.  A field that is
    a non-empty string, blanks included, is what [Image.create] stores as
    [imageUrl] when the store answers.  The URL the handler resolves is the
    session's [currentImage] only when the field is absent or the empty
    string; any other field is itself the resolved URL. *)
Theorem save_verbatim (name : value) (s : jsstring) (w : world) (u : session_user) :
  s_user (sess w) = Some u -> s <> [] -> next_call_rejects w = false ->
  (exists w',
     app POST_save (mk_request (mk_body name (VStr s))) w
       = (Returned (Redirect 302 "/saved"), w')
     /\ images w' = images w ++ [mk_image (next_oid w) (su_id u) s (now w)]
     /\ users w' = users w /\ sess w' = sess w)
  /\ (forall v cur,
        is_form_value v = true ->
        let req := mk_request (mk_body name v) in
        let ses := mk_session (Some u) cur in
        (v = VUndefined \/ v = VStr [] -> resolve_imageUrl req ses = cur)
        /\ (~ (v = VUndefined \/ v = VStr []) -> resolve_imageUrl req ses = v)).
Proof.
  intros Hu Hs Hcall. split.
  - unfold app, expose_user. simpl router. rewrite Hu.
    rewrite (requireLogin_logged_in _ _ u) by (simpl; exact Hu).
    rewrite (post_save_string name s _ u) by (simpl; assumption).
    destruct (pop_fault_frame (set_currentUser (Some u) w))
      as (Hus & Him & Hse & Hno & Hoi & _).
    simpl in Hus, Him, Hse, Hno, Hoi.
    eexists. split; [reflexivity |]. simpl.
    rewrite Him, Hus, Hse, Hno, Hoi. repeat split.
  - intros v cur Hform req ses. unfold resolve_imageUrl, req, ses. simpl.
    pose proof (form_value_falsy v Hform) as Hfalsy. split.
    + intros Hv. apply js_or_falsy. now apply Hfalsy.
    + intros Hv. apply js_or_truthy.
      destruct (truthy v) eqn:E; [reflexivity |].
      exfalso. apply Hv. now apply Hfalsy.
Qed.

(** ** A body without the field *)

(** Reading [message] off a parsed body that is not [null] and has no such
    property gives [undefined]. *)
Lemma get_message_absent (data : value) (w : world) :
  is_json_value data = true -> data <> VNull -> lacks_message data ->
  get_message data w = (Returned VUndefined, w).
Proof.
  destruct data; simpl; intros Hj Hn Hl; try reflexivity; try congruence.
  unfold ret. now rewrite Hl.
Qed.

(** C10, amended: [GET /random] by a logged-in user when the upstream answers
    with a success status and a body that parses to a JSON value other than
    [null] with no [message] property.  The handler takes the success path:
    it stores [undefined] as the session's [currentImage] and renders the home
    view with that value and no error message. *)
Theorem random_body_without_message
  (req : request) (w : world) (u : session_user) (data : value) :
  s_user (sess w) = Some u ->
  dog_api w = Responded true (Some data) ->
  is_json_value data = true -> data <> VNull -> lacks_message data ->
  app GET_random req w
  = (Returned (Render 200 "home" (HomeLocals VUndefined None)),
     set_sess (mk_session (Some u) VUndefined) (set_currentUser (Some u) w)).
Proof.
  intros Hu Hapi Hj Hn Hl.
  unfold app, expose_user. simpl router. rewrite Hu.
  rewrite (requireLogin_logged_in _ _ u) by (simpl; exact Hu).
  unfold get_random, fetch_dog, response_json. unfold_monad. rewrite Hapi.
  cbn -[lit get_message].
  rewrite (get_message_absent data _ Hj Hn Hl). cbn -[lit]. now rewrite Hu.
Qed.

(** ** The readline controller *)

Lemma on_line_stop (n m : nat) (line : jsstring) :
  command line = lit "stop" ->
  on_line n m line
  = (Alive (S n) m,
     [ConsoleLog (lit "Shutting down the server"); RlClose; ServerClose]).
Proof.
  intros H. unfold on_line. rewrite H. now rewrite jsstring_eqb_refl.
Qed.



(** A line that is not [stop] only logs and prompts. *)
Lemma on_line_other (n m : nat) (line : jsstring) :
  command line <> lit "stop" ->
  exists out, on_line n m line = (Alive n m, out) /\ forallb chatter out = true.
Proof.
  intros Hs. unfold on_line.
  destruct (jsstring_eqb (command line) (lit "stop")) eqn:E.
  - apply jsstring_eqb_eq in E. contradiction.
  - destruct (0 <? Z.of_nat (List.length (command line)));
      eexists; split; reflexivity.
Qed.

(** No line makes the handler exit, and no line takes a pending callback
    away. *)
Lemma on_line_alive (n m : nat) (line : jsstring) :
  exists n' out,
    on_line n m line = (Alive n' m, out)
    /\ (n <= n')%nat /\ forallb keeps_alive out = true.
Proof.
  unfold on_line.
  destruct (jsstring_eqb (command line) (lit "stop")).
  - exists (S n). eexists. repeat split. lia.
  - destruct (0 <? Z.of_nat (List.length (command line)));
      exists n; eexists; repeat split; lia.
Qed.

Lemma chatter_keeps_alive (out : list effect) :
  forallb chatter out = true -> forallb keeps_alive out = true.
Proof.
  induction out as [| e out IH]; [reflexivity |].
  simpl. intros H. apply andb_prop in H as [He Hout].
  rewrite (IH Hout). now destruct e.
Qed.

Lemma run_exited (code : Z) (es : list event) :
  run (Exited code) es = (Exited code, []).
Proof.
  induction es as [| e es IH]; [reflexivity |].
  simpl. rewrite IH. reflexivity.
Qed.

Lemma run_cons (p : phase) (e : event) (es : list event) :
  run p (e :: es)
  = (fst (run (fst (step p e)) es), snd (step p e) ++ snd (run (fst (step p e)) es)).
Proof.
  simpl. destruct (step p e) as [p1 o1]. simpl.
  now destruct (run p1 es) as [p2 o2].
Qed.

Lemma run_cons_inv (p p1 q : phase) (e : event) (es : list event)
  (o out : list effect) :
  step p e = (p1, o) -> run p (e :: es) = (q, out) ->
  exists out', run p1 es = (q, out') /\ out = o ++ out'.
Proof.
  intros Hstep Hrun. rewrite run_cons, Hstep in Hrun. simpl in Hrun.
  destruct (run p1 es) as [p2 o2]. simpl in Hrun. inversion Hrun; subst.
  now exists o2.
Qed.

(** Takes the first event off a run whose step computes. *)
Ltac run_step H :=
  match type of H with
  | run ?p (?e :: ?es) = _ =>
      destruct (run_cons_inv p _ _ e es _ _ eq_refl H) as (out' & Hrest & ->)
  end.

(** With a callback of the store's [close] pending, a run that exits does so
    on such a callback, with code 0, and the exit is the last thing done. *)
Lemma run_store_pending (es : list event) (n m : nat) (code : Z) (out : list effect) :
  run (Alive n (S m)) es = (Exited code, out) ->
  code = 0
  /\ (exists c d, es = c ++ StoreClosed :: d)
  /\ exists o3, out = o3 ++ [ProcessExit 0] /\ forallb keeps_alive o3 = true.
Proof.
  revert n m out. induction es as [| e es IH]; intros n m out H; [discriminate |].
  destruct e as [line | |].
  - destruct (on_line_alive n (S m) line) as (n' & o & Hline & _ & Ho).
    destruct (run_cons_inv (Alive n (S m)) _ _ (Line line) _ _ _ Hline H)
      as (out' & Hrest & ->).
    destruct (IH _ _ _ Hrest) as (Hc & (c & d & ->) & o3 & -> & Ho3).
    split; [exact Hc |]. split; [now exists (Line line :: c), d |].
    exists (o ++ o3). split; [now rewrite app_assoc |].
    now rewrite forallb_app, Ho, Ho3.
  - destruct n as [| n].
    + run_step H.
      destruct (IH _ _ _ Hrest) as (Hc & (c & d & ->) & o3 & -> & Ho3).
      split; [exact Hc |]. split; [now exists (ServerClosed :: c), d |].
      now exists o3.
    + run_step H.
      destruct (IH _ _ _ Hrest) as (Hc & (c & d & ->) & o3 & -> & Ho3).
      split; [exact Hc |]. split; [now exists (ServerClosed :: c), d |].
      exists (StoreClose false :: o3). split; [reflexivity | exact Ho3].
  - run_step H.
    rewrite run_exited in Hrest. inversion Hrest; subst.
    split; [reflexivity |]. split; [now exists [], es |].
    now exists [].
Qed.

(** With a callback of [server.close] pending and the store's [close] not
    called yet, a run that exits closes the store first. *)
Lemma run_server_pending (es : list event) (n : nat) (code : Z) (out : list effect) :
  run (Alive (S n) 0) es = (Exited code, out) ->
  code = 0
  /\ (exists b c d, es = b ++ ServerClosed :: c ++ StoreClosed :: d)
  /\ exists o2 o3,
       out = o2 ++ StoreClose false :: o3 ++ [ProcessExit 0]
       /\ forallb keeps_alive (o2 ++ StoreClose false :: o3) = true.
Proof.
  revert n out. induction es as [| e es IH]; intros n out H; [discriminate |].
  destruct e as [line | |].
  - destruct (on_line_alive (S n) 0 line) as (n' & o & Hline & Hle & Ho).
    destruct n' as [| n']; [lia |].
    destruct (run_cons_inv (Alive (S n) 0) _ _ (Line line) _ _ _ Hline H)
      as (out' & Hrest & ->).
    destruct (IH _ _ Hrest) as (Hc & (b & c & d & ->) & o2 & o3 & -> & Ho23).
    split; [exact Hc |]. split; [now exists (Line line :: b), c, d |].
    exists (o ++ o2), o3. split; [now rewrite <- app_assoc |].
    rewrite <- app_assoc, forallb_app, Ho. exact Ho23.
  - run_step H.
    destruct (run_store_pending _ _ _ _ _ Hrest) as (Hc & (c & d & ->) & o3 & -> & Ho3).
    split; [exact Hc |]. split; [now exists [], c, d |].
    exists [], o3. split; [reflexivity | exact Ho3].
  - run_step H.
    destruct (IH _ _ Hrest) as (Hc & (b & c & d & ->) & o2 & o3 & -> & Ho23).
    split; [exact Hc |]. split; [now exists (StoreClosed :: b), c, d |].
    now exists o2, o3.
Qed.

(** From the prompt, a run that exits has read a [stop], then seen the
    listener closed, then the store closed, and has called [server.close],
    then the store's [close], then [process.exit(0)], which is the last call
    and the only exit. *)
Lemma run_running (es : list event) (code : Z) (out : list effect) :
  run Running es = (Exited code, out) ->
  code = 0
  /\ (exists a line b c d,
        command line = lit "stop"
        /\ es = a ++ Line line :: b ++ ServerClosed :: c ++ StoreClosed :: d)
  /\ exists o1 o2 o3,
       out = o1 ++ ServerClose :: o2 ++ StoreClose false :: o3 ++ [ProcessExit 0]
       /\ forallb keeps_alive (o1 ++ ServerClose :: o2 ++ StoreClose false :: o3) = true.
Proof.
  unfold Running.
  revert out. induction es as [| e es IH]; intros out H; [discriminate |].
  destruct e as [line | |].
  - destruct (jsstring_eqb (command line) (lit "stop")) eqn:Estop.
    + apply jsstring_eqb_eq in Estop.
      destruct (run_cons_inv (Alive 0 0) _ _ (Line line) _ _ _
                  (on_line_stop 0 0 line Estop) H)
        as (out' & Hrest & ->).
      destruct (run_server_pending _ _ _ _ Hrest)
        as (Hc & (b & c & d & ->) & o2 & o3 & -> & Ho23).
      split; [exact Hc |]. split; [now exists [], line, b, c, d |].
      exists [ConsoleLog (lit "Shutting down the server"); RlClose], o2, o3.
      split; [reflexivity | exact Ho23].
    + assert (Hother : command line <> lit "stop").
      { intros Heq. apply jsstring_eqb_eq in Heq. congruence. }
      destruct (on_line_other 0 0 line Hother) as (o & Hline & Ho).
      destruct (run_cons_inv (Alive 0 0) _ _ (Line line) _ _ _ Hline H)
        as (out' & Hrest & ->).
      destruct (IH _ Hrest)
        as (Hc & (a & l0 & b & c & d & Hl0 & ->) & o1 & o2 & o3 & -> & Ho123).
      split; [exact Hc |]. split; [now exists (Line line :: a), l0, b, c, d |].
      exists (o ++ o1), o2, o3. split; [now rewrite <- app_assoc |].
      rewrite <- app_assoc, forallb_app, (chatter_keeps_alive _ Ho). exact Ho123.
  - run_step H.
    destruct (IH _ Hrest)
      as (Hc & (a & l0 & b & c & d & Hl0 & ->) & o1 & o2 & o3 & -> & Ho123).
    split; [exact Hc |]. split; [now exists (ServerClosed :: a), l0, b, c, d |].
    now exists o1, o2, o3.
  - run_step H.
    destruct (IH _ Hrest)
      as (Hc & (a & l0 & b & c & d & Hl0 & ->) & o1 & o2 & o3 & -> & Ho123).
    split; [exact Hc |]. split; [now exists (StoreClosed :: a), l0, b, c, d |].
    now exists o1, o2, o3.
Qed.


(** ** Every route, every path *)

(** Unfolds a request down to the matches it branches on. *)
Ltac unfold_request :=
  unfold app, expose_user, router, requireLogin, get_root, get_login,
    post_login, post_logout, get_home, get_random, post_save, get_saved,
    call_trim, fetch_dog, response_json, get_message, resolve_imageUrl, js_or,
    User_findOne, User_create, Image_create, Image_find_sorted, store_call;
  unfold_monad.

(** Splits on a match the goal is stuck on, innermost first. *)
Ltac split_path :=
  match goal with
  | |- context [match ?x with _ => _ end] =>
      lazymatch x with
      | context [match _ with _ => _ end] => fail
      | _ => destruct x eqn:?
      end
  end; cbn -[lit trim] in *.

Lemma is_empty_false_inv (s : jsstring) : is_empty s = false -> s <> [].
Proof. destruct s; [discriminate | discriminate]. Qed.

Lemma find_some_in {A : Type} (f : A -> bool) (l : list A) (x : A) :
  find f l = Some x -> In x l.
Proof. intros H. now apply find_some in H. Qed.

(** Whatever the route, the request and the world, what the request changes
    is one of the cases of [change]. *)
Lemma app_change (r : route) (req : request) (w : world) :
  change w (snd (app r req w)) r.
Proof.
  destruct r; unfold_request; repeat split_path;
    try match goal with H : s_user (sess w) = Some _ |- _ => rewrite ?H end;
    first
      [ solve [apply change_nothing; reflexivity]
      | solve [eapply change_login_found;
               [eapply find_some_in; eassumption | reflexivity ..]]
      | solve [eapply change_login_created;
               [eapply is_empty_false_inv; eassumption | eassumption
               | reflexivity ..]]
      | solve [apply change_logout; reflexivity]
      | solve [eapply change_fetched; [eassumption | reflexivity ..]]
      | solve [eapply change_saved;
               [eassumption | eapply is_empty_false_inv; eassumption
               | reflexivity ..]]
      ].
Qed.

(** ** The collections only grow *)

(** X1: no request removes or rewrites a document.  The users after a request
    are the users before it followed by at most one new user, and only
    [POST /login] adds one; the images after it are the images before it
    followed by at most one new image, and only [POST /save] adds one. *)
Theorem store_only_grows (r : route) (req : request) (w : world) :
  (exists added,
     users (snd (app r req w)) = users w ++ added
     /\ (List.length added <= 1)%nat
     /\ (r <> POST_login -> added = []))
  /\ (exists added,
        images (snd (app r req w)) = images w ++ added
        /\ (List.length added <= 1)%nat
        /\ (r <> POST_save -> added = [])).
Proof.
  pose proof (app_change r req w) as H.
  generalize dependent (snd (app r req w)). intros w' H.
  destruct H as
    [ r0 Hu Hi _ _ | x _ Hu Hi _ _ | s _ _ Hu Hi _ _ | Hu Hi _ _
    | u v _ Hu Hi _ _ | u url _ _ Hu Hi _ _ ];
    rewrite Hu, Hi; split.
  all: try (exists []; rewrite app_nil_r; repeat split; auto; fail).
  - eexists. repeat split; [simpl; lia | congruence].
  - eexists. repeat split; [simpl; lia | congruence].
Qed.

(** X2: who writes the session.  The user of the session changes only on
    [POST /login] and [POST /logout]; the stored image URL changes only on
    [GET /random] and [POST /logout].  In particular a login keeps the URL
    that was fetched before it. *)
Theorem session_writers (r : route) (req : request) (w : world) :
  (r <> POST_login -> r <> POST_logout ->
   s_user (sess (snd (app r req w))) = s_user (sess w))
  /\ (r <> GET_random -> r <> POST_logout ->
      s_currentImage (sess (snd (app r req w))) = s_currentImage (sess w)).
Proof.
  pose proof (app_change r req w) as H.
  generalize dependent (snd (app r req w)). intros w' H.
  destruct H as
    [ r0 _ _ Hs _ | x _ _ _ _ Hs | s _ _ _ _ _ Hs | _ _ _ Hs
    | u v Hu _ _ _ Hs | u url _ _ _ _ _ Hs ];
    rewrite Hs; split; intros; simpl; try congruence.
Qed.

(** ** Trimming *)

Lemma trimStart_head (s : jsstring) (c : Z) (rest : jsstring) :
  trimStart s = c :: rest -> is_js_whitespace c = false.
Proof.
  induction s as [| d s IH]; simpl; [discriminate |].
  destruct (is_js_whitespace d) eqn:E; [exact IH |].
  intros H. inversion H; subst. exact E.
Qed.

Lemma trimStart_fixed (c : Z) (rest : jsstring) :
  is_js_whitespace c = false -> trimStart (c :: rest) = c :: rest.
Proof. intros H. simpl. now rewrite H. Qed.

Lemma trimStart_idempotent (s : jsstring) : trimStart (trimStart s) = trimStart s.
Proof.
  destruct (trimStart s) as [| c rest] eqn:E; [reflexivity |].
  apply trimStart_fixed. now apply trimStart_head with s rest.
Qed.

Lemma trimStart_keeps_last (l : jsstring) (c : Z) :
  is_js_whitespace c = false -> exists l', trimStart (l ++ [c]) = l' ++ [c].
Proof.
  intros H. induction l as [| d l IH]; simpl.
  - rewrite H. now exists [].
  - destruct (is_js_whitespace d); [exact IH |]. now exists (d :: l).
Qed.

Lemma trimEnd_idempotent (s : jsstring) : trimEnd (trimEnd s) = trimEnd s.
Proof.
  unfold trimEnd. now rewrite rev_involutive, trimStart_idempotent.
Qed.

(** Trimming the end of a string that starts with a non-blank leaves that
    start in place. *)
Lemma trimStart_trimEnd (s : jsstring) :
  trimStart (trimEnd (trimStart s)) = trimEnd (trimStart s).
Proof.
  destruct (trimStart s) as [| c rest] eqn:E; [reflexivity |].
  pose proof (trimStart_head _ _ _ E) as Hc.
  unfold trimEnd. simpl rev.
  destruct (trimStart_keeps_last (rev rest) c Hc) as [l' ->].
  rewrite rev_app_distr. simpl. now rewrite Hc.
Qed.

Lemma trim_idempotent (s : jsstring) : trim (trim s) = trim s.
Proof.
  unfold trim. now rewrite trimStart_trimEnd, trimEnd_idempotent.
Qed.

(** ** Invariants of the collections *)

Lemma user_named_none_not_in (name : jsstring) (us : list user_doc) :
  user_named name us = None -> ~ In name (map u_username us).
Proof.
  unfold user_named. intros Hnone Hin.
  apply in_map_iff in Hin as (x & Hx & Hin).
  pose proof (find_none _ _ Hnone x Hin) as Hf. simpl in Hf.
  rewrite Hx, jsstring_eqb_refl in Hf. discriminate.
Qed.

(** Takes the cases of [change] for the world after a request. *)
Ltac change_cases H :=
  match goal with
  | |- context [snd (app ?r ?req ?w)] =>
      pose proof (app_change r req w) as H;
      generalize dependent (snd (app r req w)); intros ? H;
      destruct H
  end.

(** X3: the unique index is never put to the test.  If no two users share a
    name before a request, no two do after it, whatever the route and the
    request. *)
Theorem usernames_unique_kept (r : route) (req : request) (w : world) :
  usernames_unique w -> usernames_unique (snd (app r req w)).
Proof.
  unfold usernames_unique. intros Hinv. change_cases H;
    match goal with Hu : users _ = _ |- _ => rewrite Hu end; try assumption.
  rewrite map_app. simpl.
  apply (Permutation_NoDup (Permutation_cons_append _ _)).
  constructor; [now apply user_named_none_not_in | exact Hinv].
Qed.

(** X4: every name in the collection is non-empty and trimmed before a
    request, then so it is after it: [POST /login] stores the name it
    trimmed, never the field as typed. *)
Theorem usernames_trimmed_kept (r : route) (req : request) (w : world) :
  usernames_trimmed w -> usernames_trimmed (snd (app r req w)).
Proof.
  unfold usernames_trimmed. intros Hinv. change_cases H;
    match goal with Hu : users _ = _ |- _ => rewrite Hu end; try assumption.
  intros x Hin. apply in_app_or in Hin as [Hin | [<- | []]].
  - now apply Hinv.
  - simpl. split; [assumption | apply trim_idempotent].
Qed.

(** Rewrites the fields of the world after a request by what [change] says
    of them. *)
Ltac rewrite_fields :=
  repeat match goal with
         | Hx : users _ = _ |- _ => rewrite Hx; clear Hx
         | Hx : images _ = _ |- _ => rewrite Hx; clear Hx
         | Hx : next_oid _ = _ |- _ => rewrite Hx; clear Hx
         | Hx : sess ?w' = _ |- context [sess ?w'] => rewrite Hx; clear Hx
         end.

(** X6: references stay valid.  If the user of the session and the owner of
    every image are users of the collection before a request, they are after
    it: a login puts the user it found or created in the session, and a save
    takes the owner from the session. *)
Theorem references_kept (r : route) (req : request) (w : world) :
  references_hold w -> references_hold (snd (app r req w)).
Proof.
  unfold references_hold. intros (Hse & Him). change_cases H; rewrite_fields.
  - split; assumption.
  - (* logged in as a user that was found *)
    split; [| assumption].
    intros u Hu. simpl in Hu. inversion Hu; subst. now exists x.
  - (* logged in as a user that was created *)
    split.
    + intros u Hu. simpl in Hu. inversion Hu; subst.
      eexists. split; [apply in_or_app; right; now left |]. split; reflexivity.
    + intros i Hin. destruct (Him i Hin) as (x & Hx & Hid).
      exists x. split; [apply in_or_app; now left | exact Hid].
  - (* logged out *)
    split; [| assumption]. intros u Hu. discriminate.
  - (* a picture was fetched *)
    split; [| assumption].
    intros u' Hu'. simpl in Hu'. inversion Hu'; subst. now apply Hse.
  - (* an image was saved *)
    split; [assumption |].
    intros i Hin. apply in_app_or in Hin as [Hin | [<- | []]].
    + now apply Him.
    + simpl. destruct (Hse u) as (x & Hx & Hid & _); [assumption |]. now exists x.
Qed.

(** ** Responses *)

(** X7: a [username] that is not a string.  When the field the body parser
    built is truthy and not a string (an array or an object), [trim] is not a
    function: the TypeError is thrown before the [try] block and leaves the
    handler.  The handler sends nothing, makes no store call and does not
    write the session. *)
Theorem login_non_string_username (req : request) (w : world) :
  truthy (b_username (req_body req)) = true ->
  (forall s, b_username (req_body req) <> VStr s) ->
  app POST_login req w = (Thrown TypeError, set_currentUser (s_user (sess w)) w)
  /\ post_login req w = (Thrown TypeError, w).
Proof.
  intros Ht Hs. split; unfold_request; rewrite Ht;
    (destruct (b_username (req_body req)); try reflexivity; now destruct (Hs s)).
Qed.

(** X8: a browser that has not logged in gets the login page and nothing
    else.  With no user in the session every route answers with the login
    view or a redirect to [/login], except [POST /login] itself, which may
    redirect to [/home] (or throw, see X7); and no image is written. *)
Theorem anonymous_sees_only_login (r : route) (req : request) (w : world) :
  s_user (sess w) = None ->
  (fst (app r req w) = Returned (Redirect 302 "/login")
   \/ (exists e, fst (app r req w) = Returned (Render 200 "login" (LoginLocals e)))
   \/ (r = POST_login
       /\ (fst (app r req w) = Returned (Redirect 302 "/home")
           \/ fst (app r req w) = Thrown TypeError)))
  /\ images (snd (app r req w)) = images w.
Proof.
  intros Hanon. split.
  - destruct r; unfold_request; rewrite ?Hanon; repeat split_path;
      first [ now left | right; left; eexists; reflexivity
            | right; right; split; [reflexivity | now left]
            | right; right; split; [reflexivity | now right] ].
  - destruct r; unfold_request; rewrite ?Hanon; repeat split_path; reflexivity.
Qed.

(** ** Logging out *)

(** X9: [POST /logout] needs no login and always answers 302 to [/login]; it
    replaces the session by an empty one, whatever it held, and leaves both
    collections alone.  The next request of the same browser to a protected
    route is redirected to [/login]. *)
Theorem logout_locks_out (r : route) (req req' : request) (w : world) :
  protected r = true ->
  app POST_logout req w
  = (Returned (Redirect 302 "/login"),
     set_sess fresh_session (set_currentUser (s_user (sess w)) w))
  /\ fst (app r req' (snd (app POST_logout req w))) = Returned (Redirect 302 "/login")
  /\ users (snd (app r req' (snd (app POST_logout req w)))) = users w
  /\ images (snd (app r req' (snd (app POST_logout req w)))) = images w.
Proof.
  intros Hp.
  assert (Hout : app POST_logout req w
                 = (Returned (Redirect 302 "/login"),
                    set_sess fresh_session (set_currentUser (s_user (sess w)) w)))
    by reflexivity.
  split; [exact Hout |]. rewrite Hout. simpl snd.
  unfold app, expose_user. rewrite (router_protected r req' Hp).
  rewrite requireLogin_anonymous by reflexivity.
  repeat split.
Qed.

(** ** Fetching, showing and saving a picture *)

(** X10: [GET /random] by a logged-in user when the upstream answers with a
    success status and a JSON object that has a [message]: the handler stores
    that value in the session and renders the home view with it and no error;
    the collections are not touched.  When the value is a string, as the
    picture's URL is, a [GET /home] that follows renders that string, or
    [null] when it is empty, and changes nothing.  (A string is what the
    session store hands back unchanged; other values are not followed to the
    next request here.) *)
Theorem random_then_home
  (req req' : request) (w : world) (u : session_user)
  (props : list (jsstring * value)) (v : value) :
  s_user (sess w) = Some u ->
  dog_api w = Responded true (Some (VObj props)) ->
  own_property (lit "message") props = Some v ->
  app GET_random req w
  = (Returned (Render 200 "home" (HomeLocals v None)),
     set_sess (mk_session (Some u) v) (set_currentUser (Some u) w))
  /\ (forall url, v = VStr url ->
      app GET_home req' (snd (app GET_random req w))
      = (Returned (Render 200 "home"
           (HomeLocals (if is_empty url then VNull else VStr url) None)),
         snd (app GET_random req w))).
Proof.
  intros Hu Hapi Hm.
  assert (Hrun : app GET_random req w
                 = (Returned (Render 200 "home" (HomeLocals v None)),
                    set_sess (mk_session (Some u) v) (set_currentUser (Some u) w))).
  { unfold_request. rewrite Hu. cbn -[lit]. rewrite Hapi. cbn -[lit].
    rewrite Hm. cbn -[lit]. now rewrite Hu. }
  split; [exact Hrun |]. intros url ->. rewrite Hrun.
  destruct url; reflexivity.
Qed.

(** A save whose resolved URL is a non-empty string, by a logged-in user on
    a store that answers. *)
Lemma app_save_string (req : request) (url : jsstring) (w : world) (u : session_user) :
  s_user (sess w) = Some u -> resolve_imageUrl req (sess w) = VStr url ->
  url <> [] -> next_call_rejects w = false ->
  exists w',
    app POST_save req w = (Returned (Redirect 302 "/saved"), w')
    /\ users w' = users w
    /\ images w' = images w ++ [mk_image (next_oid w) (su_id u) url (now w)]
    /\ sess w' = sess w /\ now w' = now w /\ faults w' = tl (faults w).
Proof.
  intros Hu Hres Hne Hcall. destruct url as [| c url]; [congruence |].
  unfold resolve_imageUrl, js_or in Hres. unfold next_call_rejects in Hcall.
  unfold_request. repeat (progress (rewrite ?Hu, ?Hres; cbn -[lit])).
  destruct (faults w) as [| [|] rest] eqn:Hf; try discriminate; cbn -[lit];
    eexists; (split; [reflexivity |]); repeat split; cbn; now rewrite Hf.
Qed.

(** X11: [POST /save] with the form field absent or empty falls back to the
    URL the session holds from the last fetch.  For a logged-in user, a
    non-empty string in the session and a store that answers, exactly one
    image is appended, owned by the session user, with that URL and the
    current time; the answer is a 302 to [/saved] and the session still holds
    the URL. *)
Theorem save_falls_back_to_session
  (name v : value) (url : jsstring) (w : world) (u : session_user) :
  s_user (sess w) = Some u ->
  v = VUndefined \/ v = VStr [] ->
  s_currentImage (sess w) = VStr url -> url <> [] ->
  next_call_rejects w = false ->
  exists w',
    app POST_save (mk_request (mk_body name v)) w
    = (Returned (Redirect 302 "/saved"), w')
    /\ images w' = images w ++ [mk_image (next_oid w) (su_id u) url (now w)]
    /\ users w' = users w
    /\ sess w' = sess w.
Proof.
  intros Hu Hv Hcur Hne Hcall.
  destruct (app_save_string (mk_request (mk_body name v)) url w u)
    as (w' & Hrun & Hus & Him & Hse & _); try assumption.
  - unfold resolve_imageUrl. simpl. rewrite js_or_falsy; [exact Hcur |].
    destruct Hv as [-> | ->]; reflexivity.
  - exists w'. repeat split; assumption.
Qed.

Lemma reliable_accepts (w : world) : reliable w -> next_call_rejects w = false.
Proof.
  unfold reliable, next_call_rejects. intros H.
  destruct (faults w) as [| [|] rest]; try reflexivity. inversion H. discriminate.
Qed.

Lemma reliable_tl (w w' : world) :
  reliable w -> faults w' = tl (faults w) -> reliable w'.
Proof.
  unfold reliable. intros H ->. destruct (faults w); [exact H | now inversion H].
Qed.

(** The listing a logged-in user gets from a store that answers. *)
Lemma app_saved_listing (req : request) (w : world) (u : session_user) :
  s_user (sess w) = Some u -> next_call_rejects w = false ->
  fst (app GET_saved req w)
  = Returned (Render 200 "saved"
      (SavedLocals (sort_desc (owned_by (su_id u) (images w))))).
Proof.
  intros Hu Hcall. unfold next_call_rejects in Hcall. unfold_request.
  repeat (progress (rewrite ?Hu; cbn -[lit])).
  destruct (faults w) as [| [|] rest]; try discriminate; reflexivity.
Qed.

Lemma sort_desc_newest_last (l : list image_doc) (x : image_doc) :
  (forall i, In i l -> i_savedAt i < i_savedAt x) ->
  sort_desc (l ++ [x]) = x :: sort_desc l.
Proof.
  induction l as [| a l IH]; intros Hnew; [reflexivity |].
  simpl. rewrite IH by (intros i Hi; apply Hnew; now right).
  simpl. assert (Ha : i_savedAt a < i_savedAt x) by (apply Hnew; now left).
  destruct (i_savedAt x <? i_savedAt a) eqn:E; [| reflexivity].
  apply Z.ltb_lt in E. lia.
Qed.

(** X12: what is saved is listed.  After a save that goes through, the
    listing of [GET /saved] for the same user is the listing from before the
    save plus the new image; when the new image is later than every image
    saved before, it comes first. *)
Theorem save_then_listed
  (req req' : request) (url : jsstring) (w : world) (u : session_user) :
  s_user (sess w) = Some u -> resolve_imageUrl req (sess w) = VStr url ->
  url <> [] -> reliable w ->
  exists found,
    fst (app GET_saved req' (snd (app POST_save req w)))
    = Returned (Render 200 "saved" (SavedLocals found))
    /\ Permutation found
         (mk_image (next_oid w) (su_id u) url (now w)
          :: sort_desc (owned_by (su_id u) (images w)))
    /\ ((forall i, In i (images w) -> i_savedAt i < now w) ->
        found = mk_image (next_oid w) (su_id u) url (now w)
                :: sort_desc (owned_by (su_id u) (images w))).
Proof.
  intros Hu Hres Hne Hrel.
  destruct (app_save_string req url w u Hu Hres Hne (reliable_accepts w Hrel))
    as (w' & Hrun & _ & Him & Hse & _ & Hf).
  rewrite Hrun. simpl snd.
  assert (Hu' : s_user (sess w') = Some u) by now rewrite Hse.
  assert (Hcall' : next_call_rejects w' = false)
    by (apply reliable_accepts; now apply reliable_tl with w).
  rewrite (app_saved_listing req' w' u Hu' Hcall').
  eexists. split; [reflexivity |].
  assert (Hown : owned_by (su_id u) (images w')
                 = owned_by (su_id u) (images w)
                   ++ [mk_image (next_oid w) (su_id u) url (now w)]).
  { rewrite Him. unfold owned_by. rewrite filter_app. simpl.
    now rewrite N.eqb_refl. }
  rewrite Hown. split.
  - rewrite sort_desc_perm. apply Permutation_sym.
    rewrite sort_desc_perm. apply Permutation_cons_append.
  - intros Hnew. apply sort_desc_newest_last.
    intros i Hi. unfold owned_by in Hi. apply filter_In in Hi as [Hi _].
    simpl. now apply Hnew.
Qed.

(** X13: a save that fails is swallowed.  When [Image.create] rejects, or
    when the resolved URL is a value Mongoose cannot cast to a string, a
    logged-in user is redirected to [/home]; no image is written, the session
    is unchanged and the error is logged. *)
Theorem save_store_failure (req : request) (w : world) (u : session_user) :
  s_user (sess w) = Some u ->
  truthy (resolve_imageUrl req (sess w)) = true ->
  next_call_rejects w = true \/ castString (resolve_imageUrl req (sess w)) = None ->
  exists w',
    app POST_save req w = (Returned (Redirect 302 "/home"), w')
    /\ images w' = images w /\ users w' = users w /\ sess w' = sess w
    /\ console w' = console w ++ [lit "Error saving image:"].
Proof.
  intros Hu Ht Hfail. unfold resolve_imageUrl, js_or in *.
  unfold next_call_rejects in Hfail. unfold_request.
  repeat (progress (rewrite ?Hu, ?Ht; cbn -[lit])).
  destruct Hfail as [Hfail | Hfail].
  - destruct (faults w) as [| [|] rest]; try discriminate.
    cbn -[lit]. eexists. split; [reflexivity |]. repeat split.
  - fold (castString
            (if truthy (b_imageUrl (req_body req))
             then b_imageUrl (req_body req) else s_currentImage (sess w))).
    rewrite Hfail.
    destruct (faults w) as [| [|] rest]; cbn -[lit];
      eexists; (split; [reflexivity |]); repeat split.
Qed.

(** ** The controller, whatever arrives *)

Lemma calls_app (f : effect -> bool) (a b : list effect) :
  calls f (a ++ b) = (calls f a + calls f b)%nat.
Proof. unfold calls. now rewrite filter_app, length_app. Qed.

(** What a line makes the handler call: [server.close] once for a [stop],
    never the store's [close], never [process.exit]. *)
Lemma on_line_calls (n m : nat) (line : jsstring) :
  exists out,
    on_line n m line = (Alive (n + calls is_server_close out) m, out)
    /\ calls is_store_close out = 0%nat /\ calls is_exit out = 0%nat.
Proof.
  unfold on_line.
  destruct (jsstring_eqb (command line) (lit "stop")).
  - exists [ConsoleLog (lit "Shutting down the server"); RlClose; ServerClose].
    split; [| split; reflexivity].
    f_equal. f_equal. unfold calls. simpl. lia.
  - destruct (0 <? Z.of_nat (List.length (command line)));
      [ exists [ConsoleLog (lit "Invalid command: " ++ command line); RlPrompt]
      | exists [RlPrompt] ];
      (split; [| split; reflexivity]);
      f_equal; f_equal; unfold calls; simpl; lia.
Qed.

Lemma calls_from (es : list event) (n m : nat) :
  (calls is_store_close (snd (run (Alive n m) es))
   <= n + calls is_server_close (snd (run (Alive n m) es)))%nat
  /\ (calls is_exit (snd (run (Alive n m) es)) <= 1)%nat
  /\ (1 <= calls is_exit (snd (run (Alive n m) es)) ->
      1 <= m + calls is_store_close (snd (run (Alive n m) es)))%nat.
Proof.
  revert n m. induction es as [| e es IH]; intros n m.
  - simpl. unfold calls. simpl. lia.
  - rewrite run_cons. simpl snd. destruct e as [line | |]; simpl step.
    + destruct (on_line_calls n m line) as (o & -> & Hstore & Hexit).
      simpl fst. simpl snd. rewrite !calls_app, Hstore, Hexit.
      destruct (IH (n + calls is_server_close o)%nat m) as (H1 & H2 & H3).
      repeat split; try lia.
    + destruct n as [| n]; simpl fst; simpl snd.
      * apply IH.
      * rewrite !calls_app. destruct (IH n (S m)) as (H1 & H2 & H3).
        unfold calls at 1 3 5 7. simpl. repeat split; lia.
    + destruct m as [| m]; simpl fst; simpl snd.
      * apply IH.
      * rewrite run_exited. simpl. unfold calls. simpl. lia.
Qed.

(** X14: the closes stay in order at every moment.  Whatever lines and
    callbacks arrive, in whatever order and however many of them read [stop],
    the controller has never called the store's [close] more often than
    [server.close], has called [process.exit] at most once, and has called it
    only after a call to the store's [close]. *)
Theorem closes_in_order (es : list event) :
  (calls is_store_close (snd (run Running es))
   <= calls is_server_close (snd (run Running es)))%nat
  /\ (calls is_exit (snd (run Running es)) <= 1)%nat
  /\ (calls is_exit (snd (run Running es)) = 1%nat ->
      1 <= calls is_store_close (snd (run Running es)))%nat.
Proof.
  unfold Running. destruct (calls_from es 0 0) as (H1 & H2 & H3).
  repeat split; try lia.
Qed.

(** Once something is pending the controller is never back at the prompt
    with nothing pending. *)
Lemma never_back_to_prompt (es : list event) (n m : nat) :
  (0 < n + m)%nat -> fst (run (Alive n m) es) <> Running.
Proof.
  unfold Running. revert n m. induction es as [| e es IH]; intros n m Hpos.
  - simpl. intros H. inversion H. lia.
  - rewrite run_cons. simpl fst. destruct e as [line | |]; simpl step.
    + destruct (on_line_calls n m line) as (o & -> & _). simpl fst.
      apply IH. lia.
    + destruct n as [| n]; simpl fst; apply IH; lia.
    + destruct m as [| m]; simpl fst; [apply IH; lia |].
      rewrite run_exited. discriminate.
Qed.

(** X15: the controller leaves the prompt for one reason only.  A run ends
    still running exactly when none of its lines reads [stop] once trimmed and
    lower-cased; callbacks that arrive unasked change nothing. *)
Theorem running_iff_no_stop (es : list event) :
  fst (run Running es) = Running
  <-> forall line, In (Line line) es -> command line <> lit "stop".
Proof.
  induction es as [| e es IH].
  - split; [intros _ line [] | reflexivity].
  - rewrite run_cons. simpl fst. destruct e as [line | |].
    + destruct (jsstring_eqb (command line) (lit "stop")) eqn:E.
      * apply jsstring_eqb_eq in E.
        change (step Running (Line line)) with (on_line 0 0 line).
        rewrite (on_line_stop 0 0 line E). simpl fst. split.
        -- intros H. exfalso. revert H. apply never_back_to_prompt. lia.
        -- intros H. exfalso. apply (H line); [now left | exact E].
      * assert (Hother : command line <> lit "stop").
        { intros Heq. apply jsstring_eqb_eq in Heq. congruence. }
        change (step Running (Line line)) with (on_line 0 0 line).
        destruct (on_line_other 0 0 line Hother) as (o & -> & _). simpl fst.
        fold Running. rewrite IH. split.
        -- intros H l [Hl | Hl]; [| now apply H].
           inversion Hl; subst. exact Hother.
        -- intros H l Hl. apply H. now right.
    + change (fst (step Running ServerClosed)) with Running. rewrite IH. split.
      * intros H l [Hl | Hl]; [discriminate | now apply H].
      * intros H l Hl. apply H. now right.
    + change (fst (step Running StoreClosed)) with Running. rewrite IH. split.
      * intros H l [Hl | Hl]; [discriminate | now apply H].
      * intros H l Hl. apply H. now right.
Qed.

(** ** Startup and exit codes *)

Lemma serve_cons (p : process) (sg : signal) (sgs : list signal) :
  serve p (sg :: sgs)
  = (fst (serve (fst (react p sg)) sgs),
     snd (react p sg) ++ snd (serve (fst (react p sg)) sgs)).
Proof.
  simpl. destruct (react p sg) as [p1 o1]. simpl.
  now destruct (serve p1 sgs) as [p2 o2].
Qed.

(** A process that has exited hears nothing. *)
Lemma serve_exited (p : process) (sgs : list signal) (code : Z) :
  exit_code p = Some code -> serve p sgs = (p, []).
Proof.
  intros H. induction sgs as [| sg sgs IH]; [reflexivity |].
  rewrite serve_cons. unfold react. rewrite H. simpl. now rewrite IH.
Qed.

(** With the prompt open, the process exits with code 1, or with the code
    the controller exits with. *)
Lemma serve_with_prompt (sgs : list signal) (p : process) (ph : phase) (code : Z) :
  exit_code p = None -> cli p = Some ph -> code_of ph = None ->
  exit_code (fst (serve p sgs)) = Some code ->
  code = 1 \/ fst (run ph (to_controller sgs)) = Exited code.
Proof.
  revert p ph. induction sgs as [| sg sgs IH]; intros p ph Hex Hcli Hph Hcode.
  - simpl in Hcode. congruence.
  - rewrite serve_cons in Hcode. simpl fst in Hcode.
    unfold react in Hcode. rewrite Hex in Hcode.
    destruct sg as [| | | e |].
    + destruct (connecting p); simpl fst in Hcode;
        now apply (IH _ ph) in Hcode.
    + destruct (connecting p); simpl fst in Hcode.
      * rewrite (serve_exited _ sgs 1) in Hcode by reflexivity.
        simpl in Hcode. inversion Hcode. now left.
      * now apply (IH _ ph) in Hcode.
    + rewrite Hcli in Hcode. simpl fst in Hcode. now apply (IH _ ph) in Hcode.
    + rewrite Hcli in Hcode. simpl to_controller. rewrite run_cons. simpl fst.
      destruct (step ph e) as [ph' out] eqn:Hstep. simpl fst in *.
      destruct (code_of ph') as [c' |] eqn:Hc'.
      * rewrite (serve_exited _ sgs c') in Hcode by reflexivity.
        simpl in Hcode. inversion Hcode; subst c'.
        destruct ph'; simpl in Hc'; try discriminate. inversion Hc'; subst.
        right. now rewrite run_exited.
      * now apply (IH _ ph') in Hcode.
    + simpl fst in Hcode.
      rewrite (serve_exited _ sgs 1) in Hcode by reflexivity.
      simpl in Hcode. inversion Hcode. now left.
Qed.

(** Before the listener is up, the same, and the controller only hears what
    arrives after [Listening]. *)
Lemma serve_before_prompt (sgs : list signal) (p : process) (code : Z) :
  exit_code p = None -> cli p = None ->
  exit_code (fst (serve p sgs)) = Some code ->
  code = 1
  \/ exists pre post,
       sgs = pre ++ Listening :: post
       /\ fst (run Running (to_controller post)) = Exited code.
Proof.
  revert p. induction sgs as [| sg sgs IH]; intros p Hex Hcli Hcode.
  - simpl in Hcode. congruence.
  - rewrite serve_cons in Hcode. simpl fst in Hcode.
    unfold react in Hcode. rewrite Hex in Hcode.
    assert (Hlater : forall p', exit_code p' = None -> cli p' = None ->
              exit_code (fst (serve p' sgs)) = Some code ->
              code = 1
              \/ exists pre post,
                   sg :: sgs = pre ++ Listening :: post
                   /\ fst (run Running (to_controller post)) = Exited code).
    { intros p' He' Hc' Hcode'.
      destruct (IH p' He' Hc' Hcode') as [Hc | (pre & post & -> & Hrun)].
      - now left.
      - right. now exists (sg :: pre), post. }
    destruct sg as [| | | e |].
    + destruct (connecting p); simpl fst in Hcode; now apply Hlater in Hcode.
    + destruct (connecting p); simpl fst in Hcode.
      * rewrite (serve_exited _ sgs 1) in Hcode by reflexivity.
        simpl in Hcode. inversion Hcode. now left.
      * now apply Hlater in Hcode.
    + rewrite Hcli in Hcode. simpl fst in Hcode.
      apply (serve_with_prompt sgs _ Running code) in Hcode; try reflexivity.
      destruct Hcode as [Hc | Hrun]; [now left |].
      right. now exists [], sgs.
    + rewrite Hcli in Hcode. simpl fst in Hcode. now apply Hlater in Hcode.
    + simpl fst in Hcode.
      rewrite (serve_exited _ sgs 1) in Hcode by reflexivity.
      simpl in Hcode. inversion Hcode. now left.
Qed.

(** X16: no connection string, no server.  When [MONGO_CONNECTION_STRING] is
    undefined or the empty string the program logs the error and exits with
    code 1 at once: [mongoose.connect] and [app.listen] are never called, the
    prompt never opens, and nothing that arrives later is acted on. *)
Theorem no_connection_string (env : environment) (sgs : list signal) :
  truthy (env_MONGO_CONNECTION_STRING env) = false ->
  main env sgs
  = (mk_process (Some 1) false None (portNumber env),
     [ConsoleError (lit "Error: MONGO_CONNECTION_STRING is not defined in .env");
      Control (ProcessExit 1)]).
Proof.
  intros H. unfold main, boot. rewrite H. simpl negb. cbv iota.
  now rewrite (serve_exited _ sgs 1).
Qed.

(** X17: what exit code 0 means.  Whatever happens after the first line of
    the program (the connection may fail, errors may go uncaught, lines and
    callbacks may arrive in any order), the process ends with code 0 only when
    the connection string was set, the listener came up, and after that the
    controller got a line reading [stop], later a callback of [server.close]
    and later a callback of the store's [close]. *)
Theorem exit_zero_means_shutdown (env : environment) (sgs : list signal) :
  exit_code (fst (main env sgs)) = Some 0 ->
  truthy (env_MONGO_CONNECTION_STRING env) = true
  /\ exists pre post a line b c d,
       sgs = pre ++ Listening :: post
       /\ command line = lit "stop"
       /\ to_controller post
          = a ++ Line line :: b ++ ServerClosed :: c ++ StoreClosed :: d.
Proof.
  unfold main, boot.
  destruct (truthy (env_MONGO_CONNECTION_STRING env)) eqn:Huri; simpl negb; cbv iota.
  - destruct (serve _ sgs) as [p' out'] eqn:Hserve. simpl fst. intros Hcode.
    assert (Hcode' : exit_code (fst (serve
              (mk_process None true None (portNumber env)) sgs)) = Some 0)
      by now rewrite Hserve.
    apply serve_before_prompt in Hcode'; try reflexivity.
    destruct Hcode' as [Hc | (pre & post & Hsgs & Hrun)]; [discriminate |].
    split; [reflexivity |].
    destruct (run Running (to_controller post)) as [ph out] eqn:Hr.
    simpl in Hrun. subst ph.
    destruct (run_running _ _ _ Hr) as (_ & (a & line & b & c & d & Hstop & Hes) & _).
    now exists pre, post, a, line, b, c, d.
  - rewrite (serve_exited _ sgs 1) by reflexivity. simpl. discriminate.
Qed.

End Server.

(** * The properties at work *)

Lemma login_gate_witness :
  protected GET_saved = true
  /\ s_user (sess empty_world) = None
  /\ app cast_refuse GET_saved no_form empty_world
     = (Returned (Redirect 302 "/login"), set_currentUser None empty_world).
Proof.
  split; [reflexivity |]. split; [reflexivity |].
  destruct (login_gate cast_refuse GET_saved no_form empty_world eq_refl)
    as (_ & Hanon & _).
  destruct (Hanon eq_refl) as [_ Happ]. exact Happ.
Defined.

Lemma login_find_or_create_witness :
  exists w1 w2 usr,
    post_login (mk_request (mk_body (VStr (lit " alice ")) VUndefined)) empty_world
      = (Returned (Redirect 302 "/home"), w1)
    /\ post_login (mk_request (mk_body (VStr (lit "alice")) VUndefined))
         (set_sess fresh_session w1)
      = (Returned (Redirect 302 "/home"), w2)
    /\ users w1 = [usr] /\ users w2 = [usr].
Proof.
  destruct (login_find_or_create (lit " alice ") (lit "alice") VUndefined VUndefined
              fresh_session empty_world)
    as (w1 & w2 & usr & H1 & H2 & _ & _ & _ & Hsame & Hcase).
  - vm_compute. discriminate.
  - reflexivity.
  - constructor.
  - exists w1, w2, usr. simpl in Hcase. destruct Hcase as [_ Hu].
    repeat split; try assumption. now rewrite Hsame.
Defined.

Lemma login_blank_username_witness :
  post_login (mk_request (mk_body (VStr (lit "   ")) VUndefined)) empty_world
  = (Returned (Render 200 "login" (LoginLocals (Some "Username is required."%string))),
     empty_world).
Proof.
  apply (login_blank_username (VStr (lit "   ")) VUndefined empty_world).
  right. exists (lit "   "). split; reflexivity.
Defined.

Lemma login_store_error_witness :
  exists w',
    post_login (mk_request (mk_body (VStr (lit "bob")) VUndefined))
      (set_faults [true] empty_world)
    = (Returned (Render 200 "login"
         (LoginLocals (Some "Something went wrong. Try again."%string))), w')
    /\ sess w' = fresh_session /\ users w' = [].
Proof.
  destruct (login_store_error (lit "bob") VUndefined (set_faults [true] empty_world))
    as (w' & Hrun & Hsess & Husers & _).
  - vm_compute. discriminate.
  - left. reflexivity.
  - exists w'. repeat split; assumption.
Defined.

(** Alice is logged in and posts the login form as bob while the store is
    down: the generic error is rendered and the session still holds alice, so
    it is not left without a user. *)
Lemma login_store_error_keeps_user :
  next_call_rejects (set_faults [true] alice_world) = true
  /\ fst (post_login (mk_request (mk_body (VStr (lit "bob")) VUndefined))
            (set_faults [true] alice_world))
     = Returned (Render 200 "login"
         (LoginLocals (Some "Something went wrong. Try again."%string)))
  /\ s_user (sess (snd (post_login (mk_request (mk_body (VStr (lit "bob")) VUndefined))
                          (set_faults [true] alice_world))))
     = Some alice
  /\ s_user (sess (snd (post_login (mk_request (mk_body (VStr (lit "bob")) VUndefined))
                          (set_faults [true] alice_world))))
     <> None.
Proof.
  repeat split; try reflexivity. vm_compute. discriminate.
Qed.

Lemma random_upstream_failure_witness :
  exists msg w',
    app cast_refuse GET_random no_form alice_world
    = (Returned (Render 200 "home" (HomeLocals VNull (Some msg))), w')
    /\ msg <> ""%string
    /\ s_currentImage (sess w') = VUndefined.
Proof.
  destruct (random_upstream_failure cast_refuse no_form alice_world alice)
    as (msg & w' & Hrun & Hmsg & Hcur & _).
  - reflexivity.
  - left. reflexivity.
  - exists msg, w'. repeat split; assumption.
Defined.

Lemma saved_listing_witness :
  exists w',
    app cast_refuse GET_saved no_form gallery_world
    = (Returned (Render 200 "saved" (SavedLocals [save3; save2; save1])), w').
Proof.
  destruct (saved_listing cast_refuse no_form gallery_world alice eq_refl)
    as [Hok _].
  destruct (Hok eq_refl) as (found & w' & Hrun & _ & _ & _ & Hthree & _).
  exists w'. rewrite Hrun.
  rewrite (Hthree save1 save2 save3).
  - reflexivity.
  - apply Permutation_refl.
  - simpl. lia.
Defined.

Lemma save_without_url_witness :
  app cast_refuse POST_save no_form alice_world
  = (Returned (Redirect 302 "/home"), set_currentUser (Some alice) alice_world).
Proof.
  destruct (save_without_url cast_refuse VUndefined VUndefined alice_world alice)
    as [_ Happ].
  - reflexivity.
  - left. reflexivity.
  - reflexivity.
  - exact Happ.
Defined.

Lemma save_verbatim_witness :
  exists w',
    app cast_refuse POST_save (mk_request (mk_body VUndefined (VStr (lit "  "))))
      alice_world
    = (Returned (Redirect 302 "/saved"), w')
    /\ images w' = [mk_image 2%N 1%N (lit "  ") 1000].
Proof.
  destruct (save_verbatim cast_refuse VUndefined (lit "  ") alice_world alice)
    as [(w' & Hrun & Himg & _) _].
  - reflexivity.
  - vm_compute. discriminate.
  - reflexivity.
  - exists w'. split; assumption.
Defined.

Lemma random_body_without_message_witness :
  app cast_refuse GET_random no_form (upstream_world status_only)
  = (Returned (Render 200 "home" (HomeLocals VUndefined None)),
     set_sess (mk_session (Some alice) VUndefined)
       (set_currentUser (Some alice) (upstream_world status_only))).
Proof.
  apply (random_body_without_message cast_refuse no_form
           (upstream_world status_only) alice status_only).
  - reflexivity.
  - reflexivity.
  - reflexivity.
  - discriminate.
  - reflexivity.
Defined.

(** The upstream answers 200 with the body [null]: it parses, it has no
    [message], and the handler takes the failure path and keeps the stored
    URL. *)
Lemma random_null_body_fails :
  dog_api (upstream_world VNull) = Responded true (Some VNull)
  /\ is_json_value VNull = true
  /\ lacks_message VNull
  /\ app cast_refuse GET_random no_form (upstream_world VNull)
     = (Returned (Render 200 "home"
          (HomeLocals VNull (Some "Could not load image. Please try again."%string))),
        set_console [lit "Error fetching random image:"]
          (set_currentUser (Some alice) (upstream_world VNull)))
  /\ s_currentImage (sess (snd (app cast_refuse GET_random no_form (upstream_world VNull))))
     = VStr (lit "https://x/a.jpg")
  /\ fst (app cast_refuse GET_random no_form (upstream_world VNull))
     <> Returned (Render 200 "home" (HomeLocals VUndefined None)).
Proof.
  repeat split; try reflexivity. vm_compute. discriminate.
Qed.



(** ** Whole sessions *)

(** Log in as alice, fetch a picture the provider calls [https://x/a.jpg],
    save with an empty form: the saved list is that one picture. *)
Example alice_saves_the_fetched_picture :
  let after r req w := snd (app cast_refuse r req w) in
  let reply := VObj [(lit "message", VStr (lit "https://x/a.jpg"));
                     (lit "status", VStr (lit "success"))] in
  let login := mk_request (mk_body (VStr (lit "alice")) VUndefined) in
  let w1 := after POST_login login empty_world in
  let w2 := after GET_random no_form (set_dog_api (Responded true (Some reply)) w1) in
  let w3 := after POST_save no_form (set_now 2000 w2) in
  fst (app cast_refuse GET_saved no_form w3)
  = Returned (Render 200 "saved"
      (SavedLocals [mk_image 2%N 1%N (lit "https://x/a.jpg") 2000])).
Proof. vm_compute. reflexivity. Qed.

(** Three saves in a row at times 10, 20 and 30 are listed newest first. *)
Example three_saves_newest_first :
  let after r req w := snd (app cast_refuse r req w) in
  let save url := mk_request (mk_body VUndefined (VStr (lit url))) in
  let w1 := after POST_save (save "a"%string) (set_now 10 alice_world) in
  let w2 := after POST_save (save "b"%string) (set_now 20 w1) in
  let w3 := after POST_save (save "c"%string) (set_now 30 w2) in
  fst (app cast_refuse GET_saved no_form w3)
  = Returned (Render 200 "saved"
      (SavedLocals [mk_image 4%N 1%N (lit "c") 30; mk_image 3%N 1%N (lit "b") 20;
                    mk_image 2%N 1%N (lit "a") 10])).
Proof. vm_compute. reflexivity. Qed.

(** After a logout the same browser is sent back to the login page. *)
Example logout_then_home :
  fst (app cast_refuse GET_home no_form
         (snd (app cast_refuse POST_logout no_form alice_world)))
  = Returned (Redirect 302 "/login").
Proof. vm_compute. reflexivity. Qed.

(** A [username] that the body parser built as an array has no [trim]: the
    handler throws. *)
Example login_with_array_username :
  fst (post_login (mk_request (mk_body (VArr [VStr (lit "alice")]) VUndefined)) empty_world)
  = Thrown TypeError.
Proof. reflexivity. Qed.

(** The prompt answers an unknown command and keeps running. *)
Example unknown_command :
  step ascii_toLowerCase Running (Line (lit " Quit "))
  = (Running, [ConsoleLog (lit "Invalid command: quit"); RlPrompt]).
Proof. vm_compute. reflexivity. Qed.

(** * More of the properties at work *)

(** A login form with a name, a save form with a URL. *)
Definition login_as (name : string) : request :=
  mk_request (mk_body (VStr (lit name)) VUndefined).

Definition save_url (url : string) : request :=
  mk_request (mk_body VUndefined (VStr (lit url))).

(** A configured process, and a run that brings it up and stops it. *)
Definition configured : environment :=
  mk_environment VUndefined (VStr (lit "mongodb://localhost/dogs")).

Definition up_and_down : list signal :=
  [Listening; Connected; Controller (Line (lit "help"));
   Controller (Line (lit " Stop ")); Controller ServerClosed;
   Controller StoreClosed].

Lemma store_only_grows_witness :
  exists added,
    users (snd (app cast_refuse POST_login (login_as "bob") alice_world))
    = users alice_world ++ added
    /\ (List.length added <= 1)%nat.
Proof.
  destruct (store_only_grows cast_refuse POST_login (login_as "bob") alice_world)
    as [(added & Husers & Hlen & _) _].
  exists added. split; assumption.
Defined.

Lemma session_writers_witness :
  s_user (sess (snd (app cast_refuse GET_home no_form alice_world))) = Some alice.
Proof.
  destruct (session_writers cast_refuse GET_home no_form alice_world) as [Huser _].
  rewrite Huser; [reflexivity | discriminate | discriminate].
Defined.

Lemma usernames_unique_kept_witness :
  usernames_unique alice_world
  /\ usernames_unique (snd (app cast_refuse POST_login (login_as "bob") alice_world)).
Proof.
  assert (H : usernames_unique alice_world).
  { unfold usernames_unique. simpl. constructor; [intros [] | constructor]. }
  split; [exact H | now apply usernames_unique_kept].
Defined.

Lemma usernames_trimmed_kept_witness :
  usernames_trimmed alice_world
  /\ usernames_trimmed
       (snd (app cast_refuse POST_login (login_as "  bob ") alice_world)).
Proof.
  assert (H : usernames_trimmed alice_world).
  { intros x [<- | []]. split; [discriminate | reflexivity]. }
  split; [exact H | now apply usernames_trimmed_kept].
Defined.

Lemma references_kept_witness :
  references_hold alice_world
  /\ references_hold
       (snd (app cast_refuse POST_save (save_url "https://x/a.jpg") alice_world)).
Proof.
  assert (H : references_hold alice_world).
  { split.
    - intros u Hu. inversion Hu; subst.
      exists (mk_user 1%N (lit "alice") 900). repeat split. now left.
    - intros i []. }
  split; [exact H | now apply references_kept].
Defined.

Lemma login_non_string_username_witness :
  app cast_refuse POST_login
    (mk_request (mk_body (VArr [VStr (lit "alice")]) VUndefined)) empty_world
  = (Thrown TypeError, set_currentUser None empty_world).
Proof.
  destruct (login_non_string_username cast_refuse
              (mk_request (mk_body (VArr [VStr (lit "alice")]) VUndefined))
              empty_world) as [Happ _].
  - reflexivity.
  - discriminate.
  - exact Happ.
Defined.

Lemma anonymous_sees_only_login_witness :
  s_user (sess empty_world) = None
  /\ images (snd (app cast_refuse POST_save (save_url "https://x/a.jpg") empty_world))
     = [].
Proof.
  split; [reflexivity |].
  destruct (anonymous_sees_only_login cast_refuse POST_save
              (save_url "https://x/a.jpg") empty_world eq_refl) as [_ Himages].
  exact Himages.
Defined.

Lemma logout_locks_out_witness :
  fst (app cast_refuse GET_saved no_form
         (snd (app cast_refuse POST_logout no_form alice_world)))
  = Returned (Redirect 302 "/login").
Proof.
  destruct (logout_locks_out cast_refuse GET_saved no_form no_form alice_world eq_refl)
    as (_ & Hnext & _).
  exact Hnext.
Defined.

Lemma random_then_home_witness :
  fst (app cast_refuse GET_home no_form
         (snd (app cast_refuse GET_random no_form
                 (upstream_world (VObj [(lit "message", VStr (lit "https://x/b.jpg"))])))))
  = Returned (Render 200 "home" (HomeLocals (VStr (lit "https://x/b.jpg")) None)).
Proof.
  destruct (random_then_home cast_refuse no_form no_form
              (upstream_world (VObj [(lit "message", VStr (lit "https://x/b.jpg"))]))
              alice [(lit "message", VStr (lit "https://x/b.jpg"))]
              (VStr (lit "https://x/b.jpg")) eq_refl eq_refl eq_refl)
    as [_ Hhome].
  rewrite (Hhome (lit "https://x/b.jpg") eq_refl). reflexivity.
Defined.

Lemma save_falls_back_to_session_witness :
  exists w',
    app cast_refuse POST_save no_form (upstream_world VNull)
    = (Returned (Redirect 302 "/saved"), w')
    /\ images w' = [mk_image 2%N 1%N (lit "https://x/a.jpg") 1000].
Proof.
  destruct (save_falls_back_to_session cast_refuse VUndefined VUndefined
              (lit "https://x/a.jpg") (upstream_world VNull) alice)
    as (w' & Hrun & Himages & _).
  - reflexivity.
  - now left.
  - reflexivity.
  - discriminate.
  - reflexivity.
  - exists w'. split; assumption.
Defined.

Lemma save_then_listed_witness :
  fst (app cast_refuse GET_saved no_form
         (snd (app cast_refuse POST_save (save_url "https://x/c.jpg") alice_world)))
  = Returned (Render 200 "saved"
      (SavedLocals [mk_image 2%N 1%N (lit "https://x/c.jpg") 1000])).
Proof.
  destruct (save_then_listed cast_refuse (save_url "https://x/c.jpg") no_form
              (lit "https://x/c.jpg") alice_world alice)
    as (found & Hrun & _ & Hfirst).
  - reflexivity.
  - reflexivity.
  - discriminate.
  - constructor.
  - rewrite Hrun, Hfirst; [reflexivity | intros i []].
Defined.

Lemma save_store_failure_witness :
  exists w',
    app cast_refuse POST_save (save_url "https://x/c.jpg")
      (set_faults [true] alice_world)
    = (Returned (Redirect 302 "/home"), w')
    /\ images w' = [].
Proof.
  destruct (save_store_failure cast_refuse (save_url "https://x/c.jpg")
              (set_faults [true] alice_world) alice)
    as (w' & Hrun & Himages & _).
  - reflexivity.
  - reflexivity.
  - now left.
  - exists w'. split; assumption.
Defined.

Lemma closes_in_order_witness :
  (calls is_store_close
     (snd (run ascii_toLowerCase Running
             [Line (lit "stop"); Line (lit "stop"); ServerClosed; Line (lit "x")]))
   <= calls is_server_close
        (snd (run ascii_toLowerCase Running
                [Line (lit "stop"); Line (lit "stop"); ServerClosed; Line (lit "x")])))%nat.
Proof.
  destruct (closes_in_order ascii_toLowerCase
              [Line (lit "stop"); Line (lit "stop"); ServerClosed; Line (lit "x")])
    as [Hle _].
  exact Hle.
Defined.

Lemma running_iff_no_stop_witness :
  fst (run ascii_toLowerCase Running [Line (lit "help"); StoreClosed; Line (lit "")])
  = Running.
Proof.
  apply (running_iff_no_stop ascii_toLowerCase).
  intros line [H | [H | [H | []]]]; inversion H; subst; vm_compute; discriminate.
Defined.

Lemma no_connection_string_witness :
  main ascii_toLowerCase (mk_environment (VStr (lit "8080")) (VStr [])) up_and_down
  = (mk_process (Some 1) false None (VStr (lit "8080")),
     [ConsoleError (lit "Error: MONGO_CONNECTION_STRING is not defined in .env");
      Control (ProcessExit 1)]).
Proof.
  apply (no_connection_string ascii_toLowerCase
           (mk_environment (VStr (lit "8080")) (VStr [])) up_and_down).
  reflexivity.
Defined.

Lemma exit_zero_means_shutdown_witness :
  exit_code (fst (main ascii_toLowerCase configured up_and_down)) = Some 0
  /\ exists pre post line,
       up_and_down = pre ++ Listening :: post
       /\ command ascii_toLowerCase line = lit "stop".
Proof.
  split; [reflexivity |].
  destruct (exit_zero_means_shutdown ascii_toLowerCase configured up_and_down eq_refl)
    as (_ & pre & post & a & line & b & c & d & Hsplit & Hstop & _).
  exists pre, post, line. split; assumption.
Defined.

(** The start message names the port, and the prompt opens with it. *)
Example start_message :
  snd (main ascii_toLowerCase configured [Listening])
  = [MongooseConnect (VStr (lit "mongodb://localhost/dogs"));
     AppListen (VNum 3000%float);
     Control (ConsoleLog (lit "Web server started and running at http://localhost:3000"));
     Control RlPrompt].
Proof. reflexivity. Qed.

(** A connection that fails while the listener drains ends the process with
    code 1 before the store is closed. *)
Example connect_fails_while_draining :
  main ascii_toLowerCase configured
    [Listening; Controller (Line (lit "stop")); ConnectFailed; Controller ServerClosed]
  = (mk_process (Some 1) false (Some Draining) (VNum 3000%float),
     [MongooseConnect (VStr (lit "mongodb://localhost/dogs"));
      AppListen (VNum 3000%float);
      Control (ConsoleLog (lit "Web server started and running at http://localhost:3000"));
      Control RlPrompt;
      Control (ConsoleLog (lit "Shutting down the server"));
      Control RlClose; Control ServerClose;
      ConsoleError (lit "MongoDB connection error:"); Control (ProcessExit 1)]).
Proof. reflexivity. Qed.

(** Two lines reading [stop] delivered together: the handler runs for both,
    so [server.close] is called twice, each callback closes the store, and
    the first callback of the store ends the process. *)
Example two_stops_in_one_chunk :
  run ascii_toLowerCase Running
    [Line (lit "stop"); Line (lit "stop"); ServerClosed; ServerClosed; StoreClosed;
     StoreClosed]
  = (Exited 0,
     [ConsoleLog (lit "Shutting down the server"); RlClose; ServerClose;
      ConsoleLog (lit "Shutting down the server"); RlClose; ServerClose;
      StoreClose false; StoreClose false; ProcessExit 0]).
Proof. reflexivity. Qed.

(** An error that nobody catches ends the process with code 1, whatever the
    controller is doing. *)
Example uncaught_error_ends_the_process :
  fst (main ascii_toLowerCase configured [Listening; Connected; Uncaught])
  = mk_process (Some 1) false (Some Running) (VNum 3000%float).
Proof. reflexivity. Qed.
